(** * docdb: the RAG document service of [main.py]

    A shallow embedding of the three request handlers of [main.py]
    ([upload_document], [query_document], [list_documents]) and of the
    lifespan start-up hook, together with the properties of the
    document-to-answer pipeline that the specification states.

    The handlers are written in a state-and-exception monad over a [World]
    that holds everything the handlers touch: the local file system, the
    Cloudinary blob store, the directory of persisted FAISS indices and the
    MongoDB collection.  The network collaborators (Cloudinary, the PDF
    loader, the embedder, the LLM, the uuid generator) are not part of the
    repository; their answers for one request are supplied by an
    environment record, so every theorem holds for every behaviour of
    theirs.  Two pieces of library behaviour that decide properties of the
    service are written out: how the application object is wired to its
    lifespan hook, and the algorithm of the text splitter.

    Scope of the model: strings are ASCII strings; calls to the local file
    system ([os.makedirs], [open], [os.remove]) succeed when their file
    is there; requests are served one after the other; the [print] calls
    and the shutdown half of [lifespan] are left out. *)

From stdpp Require Import base decidable option list gmap strings pretty.
From Stdlib Require Import ZArith Lia Ascii String.

Open Scope string_scope.
Open Scope Z_scope.
Open Scope list_scope.

(** ** Python strings (ASCII fragment) *)

Module PyStr.

Definition is_upper (c : ascii) : bool :=
  let n := N_of_ascii c in ((65 <=? n) && (n <=? 90))%N.

Definition is_lower (c : ascii) : bool :=
  let n := N_of_ascii c in ((97 <=? n) && (n <=? 122))%N.

Definition is_digit (c : ascii) : bool :=
  let n := N_of_ascii c in ((48 <=? n) && (n <=? 57))%N.

Definition lower_char (c : ascii) : ascii :=
  if is_upper c then ascii_of_N (N_of_ascii c + 32) else c.

(** [str.lower()] *)
Fixpoint lower (s : string) : string :=
  match s with
  | EmptyString => EmptyString
  | String c s' => String (lower_char c) (lower s')
  end.

(** [s.endswith(suffix)] *)
Definition endswith (s suffix : string) : bool :=
  String.prefix (String.rev suffix) (String.rev s).

(** [s.startswith(p)] *)
Definition startswith (s p : string) : bool := String.prefix p s.

(** the character class [[a-zA-Z0-9._-]] *)
Definition safe_char (c : ascii) : bool :=
  is_lower c || is_upper c || is_digit c
  || Ascii.eqb c "." || Ascii.eqb c "_" || Ascii.eqb c "-".

(** [re.sub(r'[^a-zA-Z0-9._-]', '_', s)] *)
Fixpoint sanitize (s : string) : string :=
  match s with
  | EmptyString => EmptyString
  | String c s' => String (if safe_char c then c else "_"%char) (sanitize s')
  end.

(** [not s] *)
Definition is_empty (s : string) : bool :=
  match s with EmptyString => true | String _ _ => false end.

(** [os.path.join(a, b)] (POSIX) *)
Definition path_join (a b : string) : string :=
  if startswith b "/" then b
  else if is_empty a || endswith a "/" then a +:+ b
  else a +:+ "/" +:+ b.

Fixpoint strip_slashes (r : string) : string :=
  match r with
  | String "/"%char r' => strip_slashes r'
  | _ => r
  end.

Fixpoint drop_to_slash (r : string) : string :=
  match r with
  | EmptyString => EmptyString
  | String "/"%char _ => r
  | String _ r' => drop_to_slash r'
  end.

(** [os.path.dirname(p)] (POSIX): everything up to the last slash, with
    trailing slashes removed unless the head consists of slashes only.
    Computed on the reversed path. *)
Definition dirname (p : string) : string :=
  let head := drop_to_slash (String.rev p) in
  match strip_slashes head with
  | EmptyString => String.rev head
  | stripped => String.rev stripped
  end.

End PyStr.

(** ** Data *)

(** Python exceptions, by the classes the handlers distinguish.
    [HTTPException] is FastAPI's; [DuplicateKeyError] is what a MongoDB
    collection with a unique index raises on a second insert of a key;
    [OtherError] stands for every other subclass of [Exception]. *)
Inductive exn :=
| HTTPException (status_code : Z) (detail : string)
| DuplicateKeyError (msg : string)
| OtherError (msg : string).

(** [str(e)]; Starlette prints an [HTTPException] as [status: detail]. *)
Definition str (e : exn) : string :=
  match e with
  | HTTPException s d => pretty s +:+ ": " +:+ d
  | DuplicateKeyError m => m
  | OtherError m => m
  end.

Inductive outcome (A : Type) :=
| Return (a : A)
| Raise (e : exn).
Arguments Return {A} a.
Arguments Raise {A} e.

(** The answer of an external collaborator: a value, or a failure with its
    message (surfacing in Python as some non-HTTP exception). *)
Inductive reply (A : Type) :=
| Ok (a : A)
| Fails (msg : string).
Arguments Ok {A} a.
Arguments Fails {A} msg.

Definition bytes := list Byte.byte.

(** [class QueryRequest(BaseModel)] *)
Record QueryRequest := {
  request_document_id : string;
  request_query : string
}.

(** [class DocumentResponse(BaseModel)] *)
Record DocumentResponse := {
  response_document_id : string;
  response_filename : string;
  response_cloudinary_url : string;
  response_upload_date : string
}.

(** The dictionary [document_data] stored in the collection. *)
Record document_data := {
  document_id : string;
  filename : string;
  cloudinary_url : string;
  vector_store_path : string;
  upload_date : string
}.

(** [DocumentResponse] built from the keys of the dictionary; the extra
    key [vector_store_path] is ignored by the model class. *)
Definition to_response (d : document_data) : DocumentResponse :=
  {| response_document_id := document_id d;
     response_filename := filename d;
     response_cloudinary_url := cloudinary_url d;
     response_upload_date := upload_date d |}.

(** The value returned by [query_document]. *)
Record QueryResponse := {
  answer_document_id : string;
  answer_query : string;
  answer : string;
  context : list string
}.

(** FastAPI's [UploadFile]: a name and the bytes [await file.read()] yields. *)
Record UploadFile := {
  file_name : string;
  file_bytes : bytes
}.

(** The fields of Cloudinary's upload result the handler reads. *)
Record upload_result := {
  public_id : string;
  secure_url : string;
  created_at : string
}.

(** A FAISS vector store, reduced to the chunk texts it holds in order. *)
Definition vector_store := list string.

(** Observable side effects, in the order they happen. *)
Inductive event :=
| EvBlobPut (id : string)
| EvPersist (path : string)
| EvInsert (d : document_data)
| EvRetrieve (k : nat).

Global Instance document_data_eq_dec : EqDecision document_data.
Proof. solve_decision. Defined.
Global Instance event_eq_dec : EqDecision event.
Proof. solve_decision. Defined.

(** ** The world the handlers act on *)

Record World := {
  dirs : gset string;                      (* directories made by os.makedirs *)
  files : gmap string bytes;               (* regular files on local disk *)
  cloudinary : gmap string bytes;          (* blob store, by public id *)
  vector_stores : gmap string vector_store;(* indices saved by save_local *)
  documents_collection : list document_data; (* db["documents"], in natural order *)
  document_id_unique : bool;               (* unique index on "document_id" *)
  trace : list event
}.

Definition empty_world : World :=
  {| dirs := ∅; files := ∅; cloudinary := ∅; vector_stores := ∅;
     documents_collection := []; document_id_unique := false; trace := [] |}.

Definition with_dirs (f : gset string → gset string) (w : World) : World :=
  {| dirs := f (dirs w); files := files w; cloudinary := cloudinary w;
     vector_stores := vector_stores w;
     documents_collection := documents_collection w;
     document_id_unique := document_id_unique w; trace := trace w |}.

Definition with_files (f : gmap string bytes → gmap string bytes) (w : World) : World :=
  {| dirs := dirs w; files := f (files w); cloudinary := cloudinary w;
     vector_stores := vector_stores w;
     documents_collection := documents_collection w;
     document_id_unique := document_id_unique w; trace := trace w |}.

Definition with_cloudinary (f : gmap string bytes → gmap string bytes) (w : World) : World :=
  {| dirs := dirs w; files := files w; cloudinary := f (cloudinary w);
     vector_stores := vector_stores w;
     documents_collection := documents_collection w;
     document_id_unique := document_id_unique w; trace := trace w |}.

Definition with_vector_stores
    (f : gmap string vector_store → gmap string vector_store) (w : World) : World :=
  {| dirs := dirs w; files := files w; cloudinary := cloudinary w;
     vector_stores := f (vector_stores w);
     documents_collection := documents_collection w;
     document_id_unique := document_id_unique w; trace := trace w |}.

Definition with_collection
    (f : list document_data → list document_data) (w : World) : World :=
  {| dirs := dirs w; files := files w; cloudinary := cloudinary w;
     vector_stores := vector_stores w;
     documents_collection := f (documents_collection w);
     document_id_unique := document_id_unique w; trace := trace w |}.

Definition with_unique (b : bool) (w : World) : World :=
  {| dirs := dirs w; files := files w; cloudinary := cloudinary w;
     vector_stores := vector_stores w;
     documents_collection := documents_collection w;
     document_id_unique := b; trace := trace w |}.

Definition log (e : event) (w : World) : World :=
  {| dirs := dirs w; files := files w; cloudinary := cloudinary w;
     vector_stores := vector_stores w;
     documents_collection := documents_collection w;
     document_id_unique := document_id_unique w; trace := trace w ++ [e] |}.

(** ** The monad of handlers: state and exceptions *)

Definition M (A : Type) : Type := World → World * outcome A.

Global Instance M_ret : MRet M := λ A a w, (w, Return a).

Global Instance M_bind : MBind M := λ A B k m w,
  match m w with
  | (w', Return a) => k a w'
  | (w', Raise e) => (w', Raise e)
  end.

Definition raise {A} (e : exn) : M A := λ w, (w, Raise e).

Definition modify (f : World → World) : M unit := λ w, (f w, Return tt).

Definition gets {A} (f : World → A) : M A := λ w, (w, Return (f w)).

(** [try: body except ...: handler]; the effects of [body] before the
    exception stay. *)
Definition try_except {A} (body : M A) (handler : exn → M A) : M A := λ w,
  match body w with
  | (w', Raise e) => handler e w'
  | r => r
  end.

Definition of_reply {A} (r : reply A) : M A :=
  match r with
  | Ok a => mret a
  | Fails msg => raise (OtherError msg)
  end.

(** The final world and the result of running a handler. *)
Definition final {A} (r : World * outcome A) : World := fst r.
Definition result {A} (r : World * outcome A) : outcome A := snd r.

(** ** The MongoDB collection [documents_collection] *)

Module Collection.

Definition ids (docs : list document_data) : list string :=
  document_id <$> docs.

(** [insert_one(d)] on the server: with the unique index on
    ["document_id"] a second document with a stored key is refused and
    nothing is written; otherwise the document is appended. *)
Definition insert_one (unique : bool) (docs : list document_data)
    (d : document_data) : outcome (list document_data) :=
  if unique && bool_decide (document_id d ∈ ids docs)
  then Raise (DuplicateKeyError "E11000 duplicate key error")
  else Return (docs ++ [d]).

(** [find_one({"document_id": id})]: the first match, or [None]. *)
Definition find_one (id : string) (docs : list document_data)
    : option document_data :=
  snd <$> list_find (λ d, document_id d = id) docs.

(** [find().to_list(length=n)]: the first [n] documents in natural order. *)
Definition find_to_list (n : nat) (docs : list document_data)
    : list document_data :=
  take n docs.

(** [create_index("document_id", unique=True)]: refused when the stored
    documents already violate uniqueness. *)
Definition create_index_unique (docs : list document_data) : outcome bool :=
  if bool_decide (NoDup (ids docs)) then Return true
  else Raise (DuplicateKeyError "E11000 duplicate key error").

End Collection.

(** ** The collaborators of one request *)

(** What the outside world answers during one [upload_document] call. *)
Record UploadEnv := {
  getcwd : string;                 (* os.getcwd() *)
  uuid4_temp : string;             (* uuid.uuid4().hex, for the temp file *)
  uuid4_public : string;           (* uuid.uuid4().hex, for the public id *)
  uuid4_document : string;         (* str(uuid.uuid4()), the document id *)
  cloudinary_reply : string → bytes → reply upload_result;
  pdf_reply : bytes → reply (list string);     (* PyPDFium2Loader: the pages *)
  split_documents : nat → nat → list string → list string;
                                   (* CharacterTextSplitter(size, overlap) *)
  embed_reply : list string → reply unit;      (* Cohere embeddings, FAISS build *)
  save_reply : string → reply unit;            (* disk write of save_local *)
  insert_reply : reply unit                    (* round trip to MongoDB *)
}.

(** What the outside world answers during one [query_document] call. *)
Record QueryEnv := {
  find_reply : reply unit;                     (* round trip to MongoDB *)
  rank_reply : string → vector_store → reply (list string);
                                   (* chunks ordered by similarity, best first *)
  llm_reply : string → list string → reply string  (* prompt | llm *)
}.

(** ** Primitive operations *)

(** [os.makedirs(path, exist_ok=True)] *)
Definition makedirs (path : string) : M unit :=
  modify (with_dirs (λ ds, {[path]} ∪ ds)).

(** [with open(path, "wb") as f: f.write(data)].  The write is taken to
    succeed: an [OSError] of [open], as for a name too long for the file
    system, is outside the model; the handler would report it as a 500
    through its last clause. *)
Definition write_file (path : string) (data : bytes) : M unit :=
  modify (with_files (λ fs, <[path := data]> fs)).

(** [os.path.exists(path)] *)
Definition path_exists (path : string) : M bool :=
  gets (λ w, bool_decide (is_Some (files w !! path))).

(** [os.path.getsize(path)] *)
Definition getsize (path : string) : M nat := λ w,
  match files w !! path with
  | Some data => (w, Return (List.length data))
  | None => (w, Raise (OtherError "No such file or directory"))
  end.

(** reading a file through its path, as the libraries do *)
Definition read_file (path : string) : M bytes := λ w,
  match files w !! path with
  | Some data => (w, Return data)
  | None => (w, Raise (OtherError "No such file or directory"))
  end.

(** [os.remove(path)] *)
Definition remove (path : string) : M unit := λ w,
  match files w !! path with
  | Some _ => (with_files (delete path) w, Return tt)
  | None => (w, Raise (OtherError "No such file or directory"))
  end.

(** [cloudinary.uploader.upload(path, resource_type="raw",
    folder="rag_documents", public_id=id)]: on success the blob is stored
    under the public id the service reports. *)
Definition cloudinary_uploader_upload (env : UploadEnv) (path id : string)
    : M upload_result :=
  data ← read_file path;
  r ← of_reply (cloudinary_reply env id data);
  modify (with_cloudinary (λ bs, <[public_id r := data]> bs));;
  modify (log (EvBlobPut (public_id r)));;
  mret r.

(** [PyPDFium2Loader(path).load()] *)
Definition PyPDFium2Loader_load (env : UploadEnv) (path : string)
    : M (list string) :=
  data ← read_file path;
  of_reply (pdf_reply env data).

(** [FAISS.from_documents(docs, co_embedder)] *)
Definition FAISS_from_documents (env : UploadEnv) (docs : list string)
    : M vector_store :=
  of_reply (embed_reply env docs);;
  mret docs.

(** [vector_store.save_local(path)] *)
Definition save_local (env : UploadEnv) (vs : vector_store) (path : string)
    : M unit :=
  of_reply (save_reply env path);;
  modify (with_vector_stores (λ m, <[path := vs]> m));;
  modify (log (EvPersist path)).

(** [FAISS.load_local(path, co_embedder, ...)] *)
Definition FAISS_load_local (path : string) : M vector_store := λ w,
  match vector_stores w !! path with
  | Some vs => (w, Return vs)
  | None => (w, Raise (OtherError "could not open index for reading"))
  end.

(** the server side of [insert_one], acting on the world *)
Definition store_document (d : document_data) : M unit := λ w,
  match Collection.insert_one (document_id_unique w)
          (documents_collection w) d with
  | Return docs => (log (EvInsert d) (with_collection (λ _, docs) w), Return tt)
  | Raise e => (w, Raise e)
  end.

(** [await documents_collection.insert_one(d)] *)
Definition insert_one (env : UploadEnv) (d : document_data) : M unit :=
  of_reply (insert_reply env);;
  store_document d.

(** [await documents_collection.find_one({"document_id": id})] *)
Definition find_one (env : QueryEnv) (id : string) : M (option document_data) :=
  of_reply (find_reply env);;
  gets (λ w, Collection.find_one id (documents_collection w)).

(** [await documents_collection.find().to_list(length=n)] *)
Definition find_to_list (db : reply unit) (n : nat) : M (list document_data) :=
  of_reply db;;
  gets (λ w, Collection.find_to_list n (documents_collection w)).

(** [vector_store.as_retriever(search_kwargs={"k": k})]: the retriever
    answers a question with the [k] best chunks. *)
Definition as_retriever (env : QueryEnv) (vs : vector_store) (k : nat)
    : string → M (list string) := λ question,
  modify (log (EvRetrieve k));;
  ranked ← of_reply (rank_reply env question vs);
  mret (take k ranked).

(** [create_stuff_documents_chain(llm, prompt)]: the model sees the
    question and the retrieved chunks only. *)
Definition create_stuff_documents_chain (env : QueryEnv)
    : string → list string → M string := λ question docs,
  of_reply (llm_reply env question docs).

(** [create_retrieval_chain(retriever, document_chain).ainvoke({"input": q})]:
    yields the pair of [response["context"]] and [response["answer"]]. *)
Definition create_retrieval_chain
    (retriever : string → M (list string))
    (document_chain : string → list string → M string)
    : string → M (list string * string) := λ question,
  ctx ← retriever question;
  ans ← document_chain question ctx;
  mret (ctx, ans).

(** ** The handlers *)

(** The start-up half of [lifespan]: what the hook does when it is run. *)
Definition lifespan_startup : M unit := λ w,
  match Collection.create_index_unique (documents_collection w) with
  | Return b => (with_unique b w, Return tt)
  | Raise e => (w, Raise e)
  end.

(** The last clause of each handler:
    [except Exception as e: raise HTTPException(500, ...)]. *)
Definition internal_server_error {A} (e : exn) : M A :=
  raise (HTTPException 500 ("Internal server error: " +:+ str e)).

(** [POST /upload-document/].  The [print] calls are left out. *)
Definition upload_document (env : UploadEnv) (file : UploadFile)
    : M DocumentResponse :=
  try_except
    (if negb (PyStr.endswith (PyStr.lower (file_name file)) ".pdf") then
       raise (HTTPException 400 "Only PDF files are allowed")
     else
       let temp_dir := PyStr.path_join (getcwd env) "temp" in
       makedirs temp_dir;;
       let safe_filename := PyStr.sanitize (file_name file) in
       let temp_file_path :=
         PyStr.path_join temp_dir (uuid4_temp env +:+ "_" +:+ safe_filename) in
       let file_content := file_bytes file in
       match file_content with
       | [] =>
           raise (HTTPException 400 "Uploaded file is empty or could not be read.")
       | _ :: _ =>
           write_file temp_file_path file_content;;
           present ← path_exists temp_file_path;
           size ← (if present then getsize temp_file_path else mret 0%nat);
           if negb present || bool_decide (size = 0%nat) then
             raise (HTTPException 500
                      ("Failed to create temporary file or it's empty after writing: "
                       +:+ temp_file_path))
           else
             upload_result ← cloudinary_uploader_upload env temp_file_path
                               ("doc_" +:+ uuid4_public env);
             document ← try_except
                          (PyPDFium2Loader_load env temp_file_path)
                          (λ e, raise (HTTPException 400
                                  ("Failed to load document (PDFium: "
                                   +:+ str e +:+ ")")));
             let docs := split_documents env 1000 0 document in
             let persistent_path :=
               PyStr.path_join "vector_stores" (public_id upload_result) in
             makedirs (PyStr.dirname persistent_path);;
             vector_store ← FAISS_from_documents env docs;
             save_local env vector_store persistent_path;;
             let document_data :=
               {| document_id := uuid4_document env;
                  filename := file_name file;
                  cloudinary_url := secure_url upload_result;
                  vector_store_path := persistent_path;
                  upload_date := created_at upload_result |} in
             insert_one env document_data;;
             remove temp_file_path;;
             mret (to_response document_data)
       end)
    (λ e, match e with
          | HTTPException _ _ => raise e
          | _ => internal_server_error e
          end).

(** [POST /query-document/].  The only [except] clause is
    [except Exception], and [HTTPException] is a subclass of [Exception]. *)
Definition query_document (env : QueryEnv) (request : QueryRequest)
    : M QueryResponse :=
  try_except
    (document ← find_one env (request_document_id request);
     match document with
     | None => raise (HTTPException 404 "Document not found")
     | Some document =>
         vector_store ← FAISS_load_local (vector_store_path document);
         let retriever := as_retriever env vector_store 3 in
         let document_chain := create_stuff_documents_chain env in
         let rag_chain := create_retrieval_chain retriever document_chain in
         response ← rag_chain (request_query request);
         mret {| answer_document_id := request_document_id request;
                 answer_query := request_query request;
                 answer := snd response;
                 context := fst response |}
     end)
    internal_server_error.

(** [GET /documents/] *)
Definition list_documents (db : reply unit) : M (list DocumentResponse) :=
  try_except
    (documents ← find_to_list db 100;
     mret (to_response <$> documents))
    internal_server_error.

(** ** What one run adds to the trace *)

Definition emitted {A} (m : M A) (w : World) : list event :=
  drop (List.length (trace w)) (trace (final (m w))).

Definition failed {A} (o : outcome A) : Prop :=
  match o with Raise _ => True | Return _ => False end.

Definition succeeded {A} (o : outcome A) : Prop :=
  match o with Return _ => True | Raise _ => False end.

(** ** The runs of [upload_document], path by path *)

Section UploadRun.

Variables (env : UploadEnv) (file : UploadFile) (w : World).

Definition temp_dir : string := PyStr.path_join (getcwd env) "temp".

Definition temp_file_path : string :=
  PyStr.path_join temp_dir
    (uuid4_temp env +:+ "_" +:+ PyStr.sanitize (file_name file)).

Definition persistent_path (r : upload_result) : string :=
  PyStr.path_join "vector_stores" (public_id r).

Definition new_document (r : upload_result) : document_data :=
  {| document_id := uuid4_document env;
     filename := file_name file;
     cloudinary_url := secure_url r;
     vector_store_path := persistent_path r;
     upload_date := created_at r |}.

(** the world after each step that changes it *)
Definition w_temp_dir : World :=
  with_dirs (λ ds, {[temp_dir]} ∪ ds) w.

Definition w_temp_file : World :=
  with_files (λ fs, <[temp_file_path := file_bytes file]> fs) w_temp_dir.

Definition w_blob (r : upload_result) : World :=
  log (EvBlobPut (public_id r))
    (with_cloudinary (λ bs, <[public_id r := file_bytes file]> bs) w_temp_file).

Definition w_store_dir (r : upload_result) : World :=
  with_dirs (λ ds, {[PyStr.dirname (persistent_path r)]} ∪ ds) (w_blob r).

Definition w_persisted (r : upload_result) (docs : list string) : World :=
  log (EvPersist (persistent_path r))
    (with_vector_stores (λ m, <[persistent_path r := docs]> m) (w_store_dir r)).

Definition w_inserted (r : upload_result) (docs : list string) : World :=
  log (EvInsert (new_document r))
    (with_collection (λ _, documents_collection w ++ [new_document r])
       (w_persisted r docs)).

Definition w_cleaned (r : upload_result) (docs : list string) : World :=
  with_files (delete temp_file_path) (w_inserted r docs).

Definition is_pdf_name : bool :=
  PyStr.endswith (PyStr.lower (file_name file)) ".pdf".

Definition requested_public_id : string := "doc_" +:+ uuid4_public env.

Definition chunks_of (pages : list string) : list string :=
  split_documents env 1000 0 pages.

Definition duplicate_key : bool :=
  document_id_unique w
  && bool_decide (uuid4_document env ∈ Collection.ids (documents_collection w)).

(** Every run of the handler follows exactly one of these paths; each
    constructor records where the run stopped, the world it leaves and
    the response. *)
Inductive upload_run : World → outcome DocumentResponse → Prop :=
| run_not_pdf :
    is_pdf_name = false →
    upload_run w (Raise (HTTPException 400 "Only PDF files are allowed"))
| run_empty :
    is_pdf_name = true →
    file_bytes file = [] →
    upload_run w_temp_dir
      (Raise (HTTPException 400 "Uploaded file is empty or could not be read."))
| run_blob_failed msg :
    is_pdf_name = true →
    file_bytes file ≠ [] →
    cloudinary_reply env requested_public_id (file_bytes file) = Fails msg →
    upload_run w_temp_file
      (Raise (HTTPException 500 ("Internal server error: " +:+ msg)))
| run_pdf_failed r msg :
    is_pdf_name = true →
    file_bytes file ≠ [] →
    cloudinary_reply env requested_public_id (file_bytes file) = Ok r →
    pdf_reply env (file_bytes file) = Fails msg →
    upload_run (w_blob r)
      (Raise (HTTPException 400
                ("Failed to load document (PDFium: " +:+ msg +:+ ")")))
| run_embed_failed r pages msg :
    is_pdf_name = true →
    file_bytes file ≠ [] →
    cloudinary_reply env requested_public_id (file_bytes file) = Ok r →
    pdf_reply env (file_bytes file) = Ok pages →
    embed_reply env (chunks_of pages) = Fails msg →
    upload_run (w_store_dir r)
      (Raise (HTTPException 500 ("Internal server error: " +:+ msg)))
| run_save_failed r pages msg :
    is_pdf_name = true →
    file_bytes file ≠ [] →
    cloudinary_reply env requested_public_id (file_bytes file) = Ok r →
    pdf_reply env (file_bytes file) = Ok pages →
    embed_reply env (chunks_of pages) = Ok tt →
    save_reply env (persistent_path r) = Fails msg →
    upload_run (w_store_dir r)
      (Raise (HTTPException 500 ("Internal server error: " +:+ msg)))
| run_insert_failed r pages msg :
    is_pdf_name = true →
    file_bytes file ≠ [] →
    cloudinary_reply env requested_public_id (file_bytes file) = Ok r →
    pdf_reply env (file_bytes file) = Ok pages →
    embed_reply env (chunks_of pages) = Ok tt →
    save_reply env (persistent_path r) = Ok tt →
    insert_reply env = Fails msg →
    upload_run (w_persisted r (chunks_of pages))
      (Raise (HTTPException 500 ("Internal server error: " +:+ msg)))
| run_duplicate r pages :
    is_pdf_name = true →
    file_bytes file ≠ [] →
    cloudinary_reply env requested_public_id (file_bytes file) = Ok r →
    pdf_reply env (file_bytes file) = Ok pages →
    embed_reply env (chunks_of pages) = Ok tt →
    save_reply env (persistent_path r) = Ok tt →
    insert_reply env = Ok tt →
    duplicate_key = true →
    upload_run (w_persisted r (chunks_of pages))
      (Raise (HTTPException 500
                "Internal server error: E11000 duplicate key error"))
| run_done r pages :
    is_pdf_name = true →
    file_bytes file ≠ [] →
    cloudinary_reply env requested_public_id (file_bytes file) = Ok r →
    pdf_reply env (file_bytes file) = Ok pages →
    embed_reply env (chunks_of pages) = Ok tt →
    save_reply env (persistent_path r) = Ok tt →
    insert_reply env = Ok tt →
    duplicate_key = false →
    upload_run (w_cleaned r (chunks_of pages))
      (Return (to_response (new_document r))).

End UploadRun.

(** ** Weakest preconditions

    [wp m Q w]: running [m] from [w] ends in a world and an outcome that
    satisfy [Q]. *)

Definition wp {A} (m : M A) (Q : World → outcome A → Prop) (w : World) : Prop :=
  Q (final (m w)) (result (m w)).

(** ** The text splitter

    [upload_document] splits the pages with
    [CharacterTextSplitter(chunk_size=1000, chunk_overlap=0)] of the
    text-splitter library.  The library is not part of the repository;
    its algorithm is transcribed here for ASCII text and for the defaults
    the source leaves in place: the separator is a blank line, the
    separators are not kept, lengths are character counts and chunks are
    stripped of surrounding whitespace.  The splitter cuts a text at its
    blank lines only and then merges neighbouring pieces as long as they
    fit into [chunk_size]. *)

Module TextSplitter.

(** [str.isspace()] on one ASCII character *)
Definition is_space (c : ascii) : bool :=
  let n := N_of_ascii c in
  (((9 <=? n) && (n <=? 13)) || ((28 <=? n) && (n <=? 32)))%N.

Fixpoint lstrip (s : string) : string :=
  match s with
  | EmptyString => EmptyString
  | String c s' => if is_space c then lstrip s' else s
  end.

(** [s.strip()] *)
Definition strip (s : string) : string :=
  String.rev (lstrip (String.rev (lstrip s))).

Definition newline : ascii := ascii_of_N 10.

(** the default separator, a blank line *)
Definition separator : string := String newline (String newline EmptyString).

Definition push_char (c : ascii) (pieces : list string) : list string :=
  match pieces with
  | [] => [String c EmptyString]
  | p :: ps => String c p :: ps
  end.

(** [re.split(re.escape(separator), text)]: the pieces between the
    occurrences of the separator, found from left to right without
    overlap; empty pieces included. *)
Fixpoint re_split (text : string) : list string :=
  match text with
  | EmptyString => [EmptyString]
  | String c rest =>
      match rest with
      | EmptyString => [String c EmptyString]
      | String c' rest' =>
          if Ascii.eqb c newline && Ascii.eqb c' newline
          then EmptyString :: re_split rest'
          else push_char c (re_split rest)
      end
  end.


(** [_split_text_with_regex(text, separator, keep_separator=False)] *)
Definition split_text_with_regex (text : string) : list string :=
  filter (λ s, s ≠ EmptyString) (re_split text).

Definition len (s : string) : Z := Z.of_nat (String.length s).

(** [_join_docs(docs, separator)] with [strip_whitespace=True] *)
Definition join_docs (docs : list string) (sep : string) : option string :=
  let text := strip (String.concat sep docs) in
  match text with
  | EmptyString => None
  | _ => Some text
  end.

(** the test of [_merge_splits] on whether the piece of length [len_d]
    still fits: [total + _len + (separator_len if len(current_doc) > 0
    else 0) > chunk_size] *)
Definition overflows (chunk_size separator_len len_d : Z)
    (current_doc : list string) (total : Z) : bool :=
  chunk_size
  <? total + len_d + (if (0 <? List.length current_doc)%nat then separator_len else 0).

(** the [while] loop of [_merge_splits], which drops pieces from the
    front of [current_doc]; [None] is the [IndexError] of
    [current_doc[0]] on an empty list *)
Fixpoint pop_front (chunk_size chunk_overlap separator_len len_d : Z)
    (current_doc : list string) (total : Z) : option (list string * Z) :=
  if (chunk_overlap <? total)
     || (overflows chunk_size separator_len len_d current_doc total
         && (0 <? total))
  then match current_doc with
       | [] => None
       | first :: rest =>
           pop_front chunk_size chunk_overlap separator_len len_d rest
             (total - (len first
                       + (if (1 <? List.length current_doc)%nat
                          then separator_len else 0)))
       end
  else Some (current_doc, total).

(** the state of [_merge_splits]: [docs], [current_doc], [total] *)
Definition merge_state : Type := list string * list string * Z.

(** one round of the [for d in splits] loop *)
Definition merge_step (chunk_size chunk_overlap : Z) (sep : string)
    (st : merge_state) (d : string) : option merge_state :=
  let '(docs, current_doc, total) := st in
  let flushed :=
    if overflows chunk_size (len sep) (len d) current_doc total
    then match current_doc with
         | [] => Some st
         | _ :: _ =>
             let docs' := match join_docs current_doc sep with
                          | Some doc => docs ++ [doc]
                          | None => docs
                          end in
             match pop_front chunk_size chunk_overlap (len sep) (len d)
                     current_doc total with
             | Some (current_doc', total') => Some (docs', current_doc', total')
             | None => None
             end
         end
    else Some st in
  match flushed with
  | Some (docs, current_doc, total) =>
      let current_doc' := current_doc ++ [d] in
      Some (docs, current_doc',
            total + len d
            + (if (1 <? List.length current_doc')%nat then len sep else 0))
  | None => None
  end.

Fixpoint merge_loop (chunk_size chunk_overlap : Z) (sep : string)
    (st : merge_state) (splits : list string) : option merge_state :=
  match splits with
  | [] => Some st
  | d :: rest =>
      match merge_step chunk_size chunk_overlap sep st d with
      | Some st' => merge_loop chunk_size chunk_overlap sep st' rest
      | None => None
      end
  end.

(** [_merge_splits(splits, separator)] *)
Definition merge_splits (chunk_size chunk_overlap : Z) (sep : string)
    (splits : list string) : option (list string) :=
  match merge_loop chunk_size chunk_overlap sep ([], [], 0) splits with
  | Some (docs, current_doc, _) =>
      Some match join_docs current_doc sep with
           | Some doc => docs ++ [doc]
           | None => docs
           end
  | None => None
  end.

(** [CharacterTextSplitter(chunk_size, chunk_overlap).split_text(text)]
    with the defaults [separator="\n\n"], [keep_separator=False],
    [length_function=len], [strip_whitespace=True] *)
Definition split_text (chunk_size chunk_overlap : nat) (text : string)
    : option (list string) :=
  merge_splits (Z.of_nat chunk_size) (Z.of_nat chunk_overlap) separator
    (split_text_with_regex text).

(** [split_documents(pages)]: every page is split on its own, and the
    chunks are collected in page order *)
Fixpoint split_pages (chunk_size chunk_overlap : nat) (pages : list string)
    : option (list string) :=
  match pages with
  | [] => Some []
  | page :: rest =>
      match split_text chunk_size chunk_overlap page,
            split_pages chunk_size chunk_overlap rest with
      | Some chunks, Some more => Some (chunks ++ more)
      | _, _ => None
      end
  end.

(** the splitter as a total function, for use as a collaborator *)
Definition split_documents (chunk_size chunk_overlap : nat)
    (pages : list string) : list string :=
  default [] (split_pages chunk_size chunk_overlap pages).


End TextSplitter.

(** The law the specification states for a chunker, for one text and one
    configuration: the chunks with their overlaps removed concatenate to
    the text, and there are [ceil((L - overlap) / (size - overlap))] of
    them. *)











(** ** The application object

    [app = FastAPI(title=...)] is built without a [lifespan=] argument, so
    the server runs the framework's default lifespan, which does nothing.
    [app.lifespan = lifespan] then stores the handler in an attribute of
    the object, which the framework does not read. *)
Record FastAPI := {
  lifespan_context : option (M unit);    (* what the server runs at start-up *)
  lifespan_attribute : option (M unit)   (* the attribute set on line 86 *)
}.

(** [FastAPI(title=...)] *)
Definition new_FastAPI : FastAPI :=
  {| lifespan_context := None; lifespan_attribute := None |}.

(** [app.lifespan = handler] *)
Definition set_lifespan (handler : M unit) (a : FastAPI) : FastAPI :=
  {| lifespan_context := lifespan_context a;
     lifespan_attribute := Some handler |}.

Definition app : FastAPI := set_lifespan lifespan_startup new_FastAPI.

(** the start-up of the server: it runs the lifespan the application was
    built with *)
Definition startup (a : FastAPI) : M unit :=
  match lifespan_context a with
  | Some handler => handler
  | None => mret tt
  end.

(** ** Requests and reachable worlds *)

Inductive request :=
| Startup
| Upload (env : UploadEnv) (file : UploadFile)
| Query (env : QueryEnv) (req : QueryRequest)
| ListDocuments (db : reply unit).

Definition serve (r : request) (w : World) : World :=
  match r with
  | Startup => final (startup app w)
  | Upload env file => final (upload_document env file w)
  | Query env req => final (query_document env req w)
  | ListDocuments db => final (list_documents db w)
  end.

(** The worlds the service can be in: it starts with nothing stored and
    serves requests one after the other. *)
Inductive reachable : World → Prop :=
| reachable_empty : reachable empty_world
| reachable_serve r w : reachable w → reachable (serve r w).

(** A run of queries, each with its own collaborators. *)
Definition run_queries (qs : list (QueryEnv * QueryRequest)) (w : World) : World :=
  foldl (λ w q, final (query_document q.1 q.2 w)) w qs.

(** ** The properties of the specification *)

(** Every record of the Registry points at a persisted index. *)
Definition registry_backed (w : World) : Prop :=
  ∀ d, d ∈ documents_collection w →
       is_Some (vector_stores w !! vector_store_path d).

(** In a trace, every Registry insertion comes strictly after the
    persistence of the index the record points at. *)
Definition persist_before_insert (tr : list event) : Prop :=
  ∀ i d, tr !! i = Some (EvInsert d) →
         ∃ j, (j < i)%nat ∧ tr !! j = Some (EvPersist (vector_store_path d)).

(** The failure categories of the specification, by HTTP status: a
    rejected upload is a 400, an unknown document a 404, and 500 is the
    generic internal error. *)
Definition has_status {A} (status : Z) (o : outcome A) : Prop :=
  ∃ detail, o = Raise (HTTPException status detail).

Definition UnreadableDocument {A} (o : outcome A) : Prop := has_status 400 o.
Definition DocumentNotFound {A} (o : outcome A) : Prop := has_status 404 o.
Definition InternalError {A} (o : outcome A) : Prop := has_status 500 o.

(** The compensating action of section 7, for one ingest: an index
    persisted by a failing ingest is gone when the failure is reported. *)
Definition compensates (env : UploadEnv) (file : UploadFile) (w : World) : Prop :=
  ∀ path,
    EvPersist path ∈ emitted (upload_document env file) w →
    failed (result (upload_document env file w)) →
    vector_stores (final (upload_document env file w)) !! path = None.

(** Section 6 on the Blob Store, for one ingest: a failing blob upload
    does not make the ingest fail. *)
Definition tolerates_blob_failure (env : UploadEnv) (file : UploadFile)
    (w : World) : Prop :=
  ∀ msg,
    is_pdf_name file = true →
    file_bytes file ≠ [] →
    cloudinary_reply env (requested_public_id env) (file_bytes file) = Fails msg →
    succeeded (result (upload_document env file w)).

(** Section 4.7 on the retrieval width: some request makes the retriever
    run with a width other than 3. *)
Definition retrieval_width_configurable : Prop :=
  ∃ env request w k,
    k ≠ 3%nat ∧ EvRetrieve k ∈ emitted (query_document env request) w.

(** ** Concrete collaborators, files and worlds *)

Definition pdf_bytes : bytes := [Byte.x25; Byte.x50; Byte.x44; Byte.x46].

Definition demo_file : UploadFile :=
  {| file_name := "My Doc.pdf"; file_bytes := pdf_bytes |}.

Definition empty_pdf : UploadFile :=
  {| file_name := "empty.pdf"; file_bytes := [] |}.

Definition empty_txt : UploadFile :=
  {| file_name := "notes.txt"; file_bytes := [] |}.

Definition demo_upload_result (id : string) : upload_result :=
  {| public_id := "rag_documents/" +:+ id;
     secure_url := "https://res.cloudinary.com/demo/raw/upload/rag_documents/" +:+ id;
     created_at := "2024-01-01T00:00:00Z" |}.

(** every collaborator answers *)
Definition demo_env : UploadEnv :=
  {| getcwd := "/app";
     uuid4_temp := "0a1b";
     uuid4_public := "2c3d";
     uuid4_document := "4e5f-0001";
     cloudinary_reply := λ id _, Ok (demo_upload_result id);
     pdf_reply := λ _, Ok ["The capital of France is Paris."; "Second page."];
     split_documents := TextSplitter.split_documents;
     embed_reply := λ _, Ok tt;
     save_reply := λ _, Ok tt;
     insert_reply := Ok tt |}.

(** Cloudinary is down *)
Definition blob_fails_env : UploadEnv :=
  {| getcwd := getcwd demo_env;
     uuid4_temp := uuid4_temp demo_env;
     uuid4_public := uuid4_public demo_env;
     uuid4_document := uuid4_document demo_env;
     cloudinary_reply := λ _ _, Fails "Connection refused";
     pdf_reply := pdf_reply demo_env;
     split_documents := split_documents demo_env;
     embed_reply := embed_reply demo_env;
     save_reply := save_reply demo_env;
     insert_reply := insert_reply demo_env |}.

(** the bytes are not a PDF *)
Definition pdf_fails_env : UploadEnv :=
  {| getcwd := getcwd demo_env;
     uuid4_temp := uuid4_temp demo_env;
     uuid4_public := uuid4_public demo_env;
     uuid4_document := uuid4_document demo_env;
     cloudinary_reply := cloudinary_reply demo_env;
     pdf_reply := λ _, Fails "Failed to load document";
     split_documents := split_documents demo_env;
     embed_reply := embed_reply demo_env;
     save_reply := save_reply demo_env;
     insert_reply := insert_reply demo_env |}.

(** MongoDB is down when the record is inserted *)
Definition insert_fails_env : UploadEnv :=
  {| getcwd := getcwd demo_env;
     uuid4_temp := uuid4_temp demo_env;
     uuid4_public := uuid4_public demo_env;
     uuid4_document := uuid4_document demo_env;
     cloudinary_reply := cloudinary_reply demo_env;
     pdf_reply := pdf_reply demo_env;
     split_documents := split_documents demo_env;
     embed_reply := embed_reply demo_env;
     save_reply := save_reply demo_env;
     insert_reply := Fails "ServerSelectionTimeoutError" |}.

Definition demo_query_env : QueryEnv :=
  {| find_reply := Ok tt;
     rank_reply := λ _ vs, Ok vs;
     llm_reply := λ _ _, Ok "Paris" |}.

Definition demo_request : QueryRequest :=
  {| request_document_id := "4e5f-0001";
     request_query := "What is the capital of France?" |}.

Definition unknown_request : QueryRequest :=
  {| request_document_id := "never-ingested";
     request_query := "What is the capital of France?" |}.

(** the service after its start-up and one successful ingest *)
Definition demo_world : World :=
  serve (Upload demo_env demo_file) (serve Startup empty_world).

(** ** Further vocabulary for the handlers *)

(** Everything an ingest needs from its collaborators and from the world
    to go through: a PDF name, some bytes, and an answer at every step. *)
Definition ingest_conditions (env : UploadEnv) (file : UploadFile) (w : World)
    (r : upload_result) (pages : list string) : Prop :=
  is_pdf_name file = true
  ∧ file_bytes file ≠ []
  ∧ cloudinary_reply env (requested_public_id env) (file_bytes file) = Ok r
  ∧ pdf_reply env (file_bytes file) = Ok pages
  ∧ embed_reply env (chunks_of env pages) = Ok tt
  ∧ save_reply env (persistent_path r) = Ok tt
  ∧ insert_reply env = Ok tt
  ∧ duplicate_key env w = false.

(** Everything a query needs to be answered. *)
Definition query_conditions (env : QueryEnv) (request : QueryRequest)
    (w : World) (d : document_data) (vs : vector_store)
    (ranked : list string) (ans : string) : Prop :=
  find_reply env = Ok tt
  ∧ Collection.find_one (request_document_id request) (documents_collection w)
    = Some d
  ∧ vector_stores w !! vector_store_path d = Some vs
  ∧ rank_reply env (request_query request) vs = Ok ranked
  ∧ llm_reply env (request_query request) (take 3 ranked) = Ok ans.

(** The worlds the service gets to from [w0]. *)
Inductive served_from (w0 : World) : World → Prop :=
| served_here : served_from w0 w0
| served_next r w : served_from w0 w → served_from w0 (serve r w).

(** The characters of a string. *)
Definition chars (s : string) : list ascii := list_ascii_of_string s.

(** * Proofs *)

(** ** Python string helpers on examples *)

Example lower_pdf : PyStr.endswith (PyStr.lower "Report.PDF") ".pdf" = true.
Proof. reflexivity. Qed.

Example lower_txt : PyStr.endswith (PyStr.lower "notes.txt") ".pdf" = false.
Proof. reflexivity. Qed.

Example sanitize_spaces : PyStr.sanitize "my file (1).pdf" = "my_file__1_.pdf".
Proof. reflexivity. Qed.

Example dirname_store :
  PyStr.dirname (PyStr.path_join "vector_stores" "rag_documents/doc_ab")
  = "vector_stores/rag_documents".
Proof. reflexivity. Qed.

Example dirname_root : PyStr.dirname "/x" = "/".
Proof. reflexivity. Qed.

(** ** A weakest-precondition calculus for the handler monad *)

Section WP.
Context {A B : Type}.
Implicit Types (w : World) (Q : World → outcome B → Prop).

Lemma wp_ret (a : B) Q w : Q w (Return a) → wp (mret a) Q w.
Proof. exact id. Qed.

Lemma wp_raise (e : exn) Q w : Q w (Raise e) → wp (raise e) Q w.
Proof. exact id. Qed.

Lemma wp_bind (m : M A) (k : A → M B) Q w :
  wp m (λ w' o, match o with
                | Return a => wp (k a) Q w'
                | Raise e => Q w' (Raise e)
                end) w →
  wp (m ≫= k) Q w.
Proof.
  unfold wp, final, result, mbind, M_bind.
  destruct (m w) as [w' [a|e]]; exact id.
Qed.

Lemma wp_try (body : M B) (handler : exn → M B) Q w :
  wp body (λ w' o, match o with
                   | Return a => Q w' (Return a)
                   | Raise e => wp (handler e) Q w'
                   end) w →
  wp (try_except body handler) Q w.
Proof.
  unfold wp, final, result, try_except.
  destruct (body w) as [w' [a|e]]; exact id.
Qed.

Lemma wp_of_reply (r : reply B) Q w :
  match r with
  | Ok a => Q w (Return a)
  | Fails msg => Q w (Raise (OtherError msg))
  end →
  wp (of_reply r) Q w.
Proof. destruct r; exact id. Qed.

Lemma wp_gets (f : World → B) Q w : Q w (Return (f w)) → wp (gets f) Q w.
Proof. exact id. Qed.
End WP.

Lemma wp_modify (f : World → World) (Q : World → outcome unit → Prop) w :
  Q (f w) (Return tt) → wp (modify f) Q w.
Proof. exact id. Qed.

Section Primitives.
Implicit Types (w : World) (path : string).

Lemma wp_makedirs path (Q : World → outcome unit → Prop) w :
  Q (with_dirs (λ ds, {[path]} ∪ ds) w) (Return tt) → wp (makedirs path) Q w.
Proof. exact id. Qed.

Lemma wp_write_file path data (Q : World → outcome unit → Prop) w :
  Q (with_files (λ fs, <[path := data]> fs) w) (Return tt) →
  wp (write_file path data) Q w.
Proof. exact id. Qed.

Lemma wp_path_exists path data (Q : World → outcome bool → Prop) w :
  files w !! path = Some data →
  Q w (Return true) → wp (path_exists path) Q w.
Proof.
  intros Hf HQ. unfold wp, path_exists, gets, final, result; simpl.
  rewrite Hf. rewrite bool_decide_eq_true_2 by eauto. exact HQ.
Qed.

Lemma wp_getsize path data (Q : World → outcome nat → Prop) w :
  files w !! path = Some data →
  Q w (Return (List.length data)) → wp (getsize path) Q w.
Proof.
  intros Hf HQ. unfold wp, getsize, final, result. rewrite Hf. exact HQ.
Qed.

Lemma wp_read_file path data (Q : World → outcome bytes → Prop) w :
  files w !! path = Some data →
  Q w (Return data) → wp (read_file path) Q w.
Proof.
  intros Hf HQ. unfold wp, read_file, final, result. rewrite Hf. exact HQ.
Qed.

Lemma wp_remove path data (Q : World → outcome unit → Prop) w :
  files w !! path = Some data →
  Q (with_files (delete path) w) (Return tt) → wp (remove path) Q w.
Proof.
  intros Hf HQ. unfold wp, remove, final, result. rewrite Hf. exact HQ.
Qed.

Lemma wp_store_document d (Q : World → outcome unit → Prop) w :
  (if document_id_unique w
      && bool_decide (document_id d ∈ Collection.ids (documents_collection w))
   then Q w (Raise (DuplicateKeyError "E11000 duplicate key error"))
   else Q (log (EvInsert d)
             (with_collection (λ _, documents_collection w ++ [d]) w))
          (Return tt)) →
  wp (store_document d) Q w.
Proof.
  unfold wp, store_document, Collection.insert_one, final, result.
  destruct (document_id_unique w && _); exact id.
Qed.
End Primitives.

Section Projections.
Variable w : World.

Lemma files_with_dirs f : files (with_dirs f w) = files w.
Proof. reflexivity. Qed.
Lemma files_with_files f : files (with_files f w) = f (files w).
Proof. reflexivity. Qed.
Lemma files_with_cloudinary f : files (with_cloudinary f w) = files w.
Proof. reflexivity. Qed.
Lemma files_with_vector_stores f : files (with_vector_stores f w) = files w.
Proof. reflexivity. Qed.
Lemma files_with_collection f : files (with_collection f w) = files w.
Proof. reflexivity. Qed.
Lemma files_log e : files (log e w) = files w.
Proof. reflexivity. Qed.

Lemma collection_with_dirs f :
  documents_collection (with_dirs f w) = documents_collection w.
Proof. reflexivity. Qed.
Lemma collection_with_files f :
  documents_collection (with_files f w) = documents_collection w.
Proof. reflexivity. Qed.
Lemma collection_with_cloudinary f :
  documents_collection (with_cloudinary f w) = documents_collection w.
Proof. reflexivity. Qed.
Lemma collection_with_vector_stores f :
  documents_collection (with_vector_stores f w) = documents_collection w.
Proof. reflexivity. Qed.
Lemma collection_with_collection f :
  documents_collection (with_collection f w) = f (documents_collection w).
Proof. reflexivity. Qed.
Lemma collection_log e :
  documents_collection (log e w) = documents_collection w.
Proof. reflexivity. Qed.

Lemma unique_with_dirs f :
  document_id_unique (with_dirs f w) = document_id_unique w.
Proof. reflexivity. Qed.
Lemma unique_with_files f :
  document_id_unique (with_files f w) = document_id_unique w.
Proof. reflexivity. Qed.
Lemma unique_with_cloudinary f :
  document_id_unique (with_cloudinary f w) = document_id_unique w.
Proof. reflexivity. Qed.
Lemma unique_with_vector_stores f :
  document_id_unique (with_vector_stores f w) = document_id_unique w.
Proof. reflexivity. Qed.
Lemma unique_with_collection f :
  document_id_unique (with_collection f w) = document_id_unique w.
Proof. reflexivity. Qed.
Lemma unique_log e : document_id_unique (log e w) = document_id_unique w.
Proof. reflexivity. Qed.
End Projections.

Ltac world_simpl :=
  repeat progress rewrite ?files_log, ?files_with_dirs, ?files_with_files,
    ?files_with_cloudinary, ?files_with_vector_stores, ?files_with_collection,
    ?collection_log, ?collection_with_dirs, ?collection_with_files,
    ?collection_with_cloudinary, ?collection_with_vector_stores,
    ?collection_with_collection,
    ?unique_log, ?unique_with_dirs, ?unique_with_files,
    ?unique_with_cloudinary, ?unique_with_vector_stores,
    ?unique_with_collection.

Ltac file_lookup := world_simpl; apply lookup_insert_eq.

Ltac wp_step :=
  cbv beta iota zeta;
  lazymatch goal with
  | |- wp (mbind _ _) _ _ => apply wp_bind
  | |- wp (mret _) _ _ => apply wp_ret
  | |- wp (raise _) _ _ => apply wp_raise
  | |- wp (internal_server_error _) _ _ =>
      unfold internal_server_error; apply wp_raise
  | |- wp (try_except _ _) _ _ => apply wp_try
  | |- wp (makedirs _) _ _ => apply wp_makedirs
  | |- wp (write_file _ _) _ _ => apply wp_write_file
  | |- wp (modify _) _ _ => apply wp_modify
  | |- wp (gets _) _ _ => apply wp_gets
  | |- wp (path_exists _) _ _ => eapply wp_path_exists; [file_lookup|]
  | |- wp (getsize _) _ _ => eapply wp_getsize; [file_lookup|]
  | |- wp (read_file _) _ _ => eapply wp_read_file; [file_lookup|]
  | |- wp (remove _) _ _ => eapply wp_remove; [file_lookup|]
  | |- wp (of_reply _) _ _ => apply wp_of_reply
  | |- wp (store_document _) _ _ => apply wp_store_document; world_simpl
  | |- wp (cloudinary_uploader_upload _ _ _) _ _ =>
      unfold cloudinary_uploader_upload
  | |- wp (PyPDFium2Loader_load _ _) _ _ => unfold PyPDFium2Loader_load
  | |- wp (FAISS_from_documents _ _) _ _ => unfold FAISS_from_documents
  | |- wp (save_local _ _ _) _ _ => unfold save_local
  | |- wp (insert_one _ _) _ _ => unfold insert_one
  end.

Ltac wp_run := repeat wp_step; cbv beta iota zeta.

Lemma upload_document_run env file w :
  wp (upload_document env file) (upload_run env file w) w.
Proof.
  unfold upload_document.
  change (PyStr.path_join (PyStr.path_join (getcwd env) "temp")
            (uuid4_temp env +:+ "_" +:+ PyStr.sanitize (file_name file)))
    with (temp_file_path env file).
  change (PyStr.path_join (getcwd env) "temp") with (temp_dir env).
  change ("doc_" +:+ uuid4_public env) with (requested_public_id env).
  destruct (PyStr.endswith (PyStr.lower (file_name file)) ".pdf") eqn:Hpdf;
    cbv beta iota delta [negb].
  2:{ wp_run. exact (run_not_pdf env file w Hpdf). }
  destruct (file_bytes file) as [|b bytes'] eqn:Hbytes.
  { wp_run. exact (run_empty env file w Hpdf Hbytes). }
  assert (Hne : file_bytes file ≠ []) by (rewrite Hbytes; discriminate).
  wp_run.
  rewrite (bool_decide_eq_false_2 (List.length (b :: bytes') = 0%nat))
    by discriminate.
  cbv beta iota delta [orb]. rewrite <- Hbytes.
  wp_run.
  destruct (cloudinary_reply env _ _) as [r|msg] eqn:Hblob.
  2:{ wp_run. exact (run_blob_failed env file w msg Hpdf Hne Hblob). }
  change (PyStr.path_join "vector_stores" (public_id r))
    with (persistent_path r).
  change {| document_id := uuid4_document env;
            filename := file_name file;
            cloudinary_url := secure_url r;
            vector_store_path := persistent_path r;
            upload_date := created_at r |}
    with (new_document env file r).
  wp_run.
  destruct (pdf_reply env _) as [pages|msg] eqn:Hpdfr.
  2:{ wp_run. exact (run_pdf_failed env file w r msg Hpdf Hne Hblob Hpdfr). }
  change (split_documents env 1000 0 pages) with (chunks_of env pages).
  wp_run.
  destruct (embed_reply env _) as [[]|msg] eqn:Hemb.
  2:{ wp_run.
      exact (run_embed_failed env file w r pages msg Hpdf Hne Hblob Hpdfr Hemb). }
  wp_run.
  destruct (save_reply env _) as [[]|msg] eqn:Hsave.
  2:{ wp_run.
      exact (run_save_failed env file w r pages msg
               Hpdf Hne Hblob Hpdfr Hemb Hsave). }
  wp_run.
  destruct (insert_reply env) as [[]|msg] eqn:Hins.
  2:{ wp_run.
      exact (run_insert_failed env file w r pages msg
               Hpdf Hne Hblob Hpdfr Hemb Hsave Hins). }
  wp_run.
  change (document_id (new_document env file r)) with (uuid4_document env).
  change (document_id_unique w && _) with (duplicate_key env w).
  destruct (duplicate_key env w) eqn:Hdup.
  { wp_run.
    exact (run_duplicate env file w r pages
             Hpdf Hne Hblob Hpdfr Hemb Hsave Hins Hdup). }
  wp_run.
  exact (run_done env file w r pages Hpdf Hne Hblob Hpdfr Hemb Hsave Hins Hdup).
Qed.

(** ** Consequences of the path analysis *)

Lemma upload_cases env file w :
  upload_run env file w (final (upload_document env file w))
                        (result (upload_document env file w)).
Proof. exact (upload_document_run env file w). Qed.

Lemma emitted_app {A} (m : M A) w evs :
  trace (final (m w)) = trace w ++ evs → emitted m w = evs.
Proof. unfold emitted. intros ->. apply drop_app_length. Qed.

Ltac unfold_worlds :=
  unfold w_cleaned, w_inserted, w_persisted, w_store_dir, w_blob,
    w_temp_file, w_temp_dir in *.

(** the events of each path *)
Lemma upload_run_emitted env file w w' o :
  upload_run env file w w' o →
  ∃ evs, trace w' = trace w ++ evs ∧
    match o with
    | Return _ =>
        ∃ r pages, evs = [EvBlobPut (public_id r); EvPersist (persistent_path r);
                          EvInsert (new_document env file r)]
                   ∧ w' = w_cleaned env file w r (chunks_of env pages)
    | Raise e =>
        evs = []
        ∨ (∃ r, evs = [EvBlobPut (public_id r)])
        ∨ (∃ r pages, evs = [EvBlobPut (public_id r); EvPersist (persistent_path r)]
                      ∧ w' = w_persisted env file w r (chunks_of env pages))
    end.
Proof.
  destruct 1; unfold_worlds; simpl.
  - exists []. rewrite app_nil_r. auto.
  - exists []. rewrite app_nil_r. auto.
  - exists []. rewrite app_nil_r. auto.
  - exists [EvBlobPut (public_id r)]. eauto.
  - exists [EvBlobPut (public_id r)]. eauto.
  - exists [EvBlobPut (public_id r)]. eauto.
  - exists [EvBlobPut (public_id r); EvPersist (persistent_path r)].
    rewrite <- app_assoc. split; [done|]. right; right. eauto.
  - exists [EvBlobPut (public_id r); EvPersist (persistent_path r)].
    rewrite <- app_assoc. split; [done|]. right; right. eauto.
  - exists [EvBlobPut (public_id r); EvPersist (persistent_path r);
            EvInsert (new_document env file r)].
    rewrite <- !app_assoc. split; [done|]. eauto.
Qed.

Ltac upload_paths env file w :=
  let Hrun := fresh "Hrun" in
  pose proof (upload_cases env file w) as Hrun;
  unfold emitted in *;
  destruct (upload_document env file w) as [? ?];
  unfold final, result in *; cbn [fst snd] in *;
  destruct Hrun; unfold_worlds; cbn [trace log with_dirs with_files with_cloudinary with_vector_stores with_collection dirs files cloudinary vector_stores documents_collection document_id_unique] in *;
  rewrite <- ?app_assoc, ?drop_app_length, ?drop_all in *;
  cbn [List.app] in *.


Ltac events :=
  repeat match goal with
    | H : _ ∈ _ :: _ |- _ => apply elem_of_cons in H; destruct H as [?|?]
    | H : _ ∈ [] |- _ => apply elem_of_nil in H; destruct H
    | H : @eq event (EvPersist _) (EvPersist _) |- _ => injection H as ->
    | H : @eq event (EvBlobPut _) (EvBlobPut _) |- _ => injection H as ->
    | H : @eq event (EvRetrieve _) (EvRetrieve _) |- _ => injection H as ->
    | H : @eq event _ _ |- _ => discriminate H
    end.

(** ** The upload handler *)

(** C2, as amended.  When an ingest has persisted its index and then fails
    (the Registry insertion is the only step left that can fail), the
    handler reports the generic internal error and deletes nothing: the
    index stays in storage and the Registry is as it was. *)
Theorem insert_failure_keeps_index env file w path :
  EvPersist path ∈ emitted (upload_document env file) w →
  failed (result (upload_document env file w)) →
  InternalError (result (upload_document env file w))
  ∧ is_Some (vector_stores (final (upload_document env file w)) !! path)
  ∧ documents_collection (final (upload_document env file w))
    = documents_collection w.
Proof.
  intros Hev Hfail. upload_paths env file w;
    try (exfalso; events; fail); try (destruct Hfail; fail).
  all: events.
  all: split; [eexists; reflexivity|].
  all: split; [rewrite lookup_insert_eq; eauto | reflexivity].
Qed.

(** C4.  A zero-byte upload is rejected with a 400 before anything is
    stored: the Registry, the persisted indices, the blob store, the
    files and the trace are unchanged.  The detail names the empty file
    when the name ends in [.pdf] and the file type otherwise. *)
Theorem zero_byte_upload_rejected env file w :
  file_bytes file = [] →
  UnreadableDocument (result (upload_document env file w))
  ∧ result (upload_document env file w)
    = Raise (HTTPException 400
               (if is_pdf_name file
                then "Uploaded file is empty or could not be read."
                else "Only PDF files are allowed"))
  ∧ documents_collection (final (upload_document env file w))
    = documents_collection w
  ∧ vector_stores (final (upload_document env file w)) = vector_stores w
  ∧ cloudinary (final (upload_document env file w)) = cloudinary w
  ∧ files (final (upload_document env file w)) = files w
  ∧ trace (final (upload_document env file w)) = trace w.
Proof.
  intros Hempty. upload_paths env file w; try congruence.
  - rewrite H. split; [eexists; reflexivity | done].
  - rewrite H. split; [eexists; reflexivity | done].
Qed.

(** C7, as amended.  When the Cloudinary upload fails the ingest fails
    with the generic internal error carrying the collaborator's message;
    no index is persisted and no record is inserted. *)
Theorem blob_failure_is_internal_error env file w msg :
  is_pdf_name file = true →
  file_bytes file ≠ [] →
  cloudinary_reply env (requested_public_id env) (file_bytes file) = Fails msg →
  result (upload_document env file w)
  = Raise (HTTPException 500 ("Internal server error: " +:+ msg))
  ∧ documents_collection (final (upload_document env file w))
    = documents_collection w
  ∧ vector_stores (final (upload_document env file w)) = vector_stores w
  ∧ cloudinary (final (upload_document env file w)) = cloudinary w.
Proof.
  intros Hpdf Hne Hblob. upload_paths env file w; try congruence.
  replace msg0 with msg by congruence. done.
Qed.

(** C10.  When an ingest fails after the blob was uploaded, the failure
    path undoes nothing: the blob is still in the blob store and the
    temporary file is still on disk, both with the uploaded bytes. *)
Theorem failed_ingest_keeps_blob_and_temp_file env file w id :
  EvBlobPut id ∈ emitted (upload_document env file) w →
  failed (result (upload_document env file w)) →
  cloudinary (final (upload_document env file w)) !! id
  = Some (file_bytes file)
  ∧ files (final (upload_document env file w)) !! temp_file_path env file
    = Some (file_bytes file).
Proof.
  intros Hev Hfail. upload_paths env file w;
    try (exfalso; events; fail); try (destruct Hfail; fail).
  all: events.
  all: split; apply lookup_insert_eq.
Qed.

(** ** The query and list handlers *)

Lemma pretty_404 : pretty 404 = "404".
Proof. reflexivity. Qed.

(** what [list_documents] answers *)
Lemma list_documents_spec db w :
  final (list_documents db w) = w
  ∧ result (list_documents db w)
    = match db with
      | Ok _ => Return (to_response <$> take 100 (documents_collection w))
      | Fails msg =>
          Raise (HTTPException 500 ("Internal server error: " +:+ msg))
      end.
Proof. destruct db; split; reflexivity. Qed.

(** the paths of [query_document] *)
Lemma query_cases env request w :
  let run := query_document env request w in
  (failed (result run) ∧ InternalError (result run)
   ∧ (final run = w ∨ final run = log (EvRetrieve 3) w))
  ∨ (∃ d vs ranked ans,
        Collection.find_one (request_document_id request)
          (documents_collection w) = Some d
        ∧ vector_stores w !! vector_store_path d = Some vs
        ∧ rank_reply env (request_query request) vs = Ok ranked
        ∧ llm_reply env (request_query request) (take 3 ranked) = Ok ans
        ∧ final run = log (EvRetrieve 3) w
        ∧ result run
          = Return {| answer_document_id := request_document_id request;
                      answer_query := request_query request;
                      answer := ans;
                      context := take 3 ranked |}).
Proof.
  unfold query_document, try_except, find_one, FAISS_load_local,
    create_retrieval_chain, as_retriever, create_stuff_documents_chain,
    internal_server_error, of_reply, gets, modify, raise, mbind, M_bind,
    mret, M_ret, final, result.
  cbv zeta.
  destruct (find_reply env) as [[]|msg]; cbn [fst snd].
  2:{ left. split; [exact I|]. split; [eexists; reflexivity | by left]. }
  destruct (Collection.find_one _ _) as [d|] eqn:Hfind; cbn [fst snd].
  2:{ left. split; [exact I|]. split; [eexists; reflexivity | by left]. }
  destruct (vector_stores w !! vector_store_path d) as [vs|] eqn:Hvs;
    cbn [fst snd].
  2:{ left. split; [exact I|]. split; [eexists; reflexivity | by left]. }
  destruct (rank_reply env _ vs) as [ranked|msg] eqn:Hrank; cbn [fst snd].
  2:{ left. split; [exact I|]. split; [eexists; reflexivity | by right]. }
  destruct (llm_reply env _ _) as [ans|msg] eqn:Hllm; cbn [fst snd].
  2:{ left. split; [exact I|]. split; [eexists; reflexivity | by right]. }
  right. exists d, vs, ranked, ans. done.
Qed.

(** A query for an identity that is not in the collection ends in the
    generic handler: the 404 raised inside the [try] is caught by
    [except Exception] and re-raised as a 500. *)
Lemma query_unknown_is_internal_error env request w :
  Collection.find_one (request_document_id request) (documents_collection w)
  = None →
  InternalError (result (query_document env request w))
  ∧ ¬ DocumentNotFound (result (query_document env request w))
  ∧ final (query_document env request w) = w.
Proof.
  intros Hnone.
  unfold query_document, try_except, find_one, internal_server_error,
    of_reply, gets, raise, mbind, M_bind, mret, M_ret, final, result.
  destruct (find_reply env) as [[]|msg]; cbn [fst snd]; rewrite ?Hnone;
    cbn [fst snd].
  all: split; [eexists; reflexivity|].
  all: split; [intros [detail Hd]; discriminate Hd | reflexivity].
Qed.

(** C1, at the failing input.  Querying an identity that was never
    ingested yields HTTP 500 with the text of the 404 inside its detail,
    not the 404 itself. *)
Theorem query_unknown_document_reports_500 :
  result (query_document demo_query_env unknown_request demo_world)
  = Raise (HTTPException 500 "Internal server error: 404: Document not found")
  ∧ ¬ DocumentNotFound
        (result (query_document demo_query_env unknown_request demo_world)).
Proof.
  split; [vm_compute; reflexivity|].
  apply (query_unknown_is_internal_error demo_query_env unknown_request).
  vm_compute; reflexivity.
Qed.

(** the only event a query emits is the retrieval with width 3 *)
Lemma query_emitted env request w :
  emitted (query_document env request) w = []
  ∨ emitted (query_document env request) w = [EvRetrieve 3].
Proof.
  destruct (query_cases env request w) as
    [(_ & _ & [Hw|Hw]) | (d & vs & ranked & ans & _ & _ & _ & _ & Hw & _)].
  - left. unfold emitted. rewrite Hw. apply drop_all.
  - right. apply emitted_app. rewrite Hw. reflexivity.
  - right. apply emitted_app. rewrite Hw. reflexivity.
Qed.

(** C8, as amended.  Every query that reaches the retriever runs it with
    width 3 and nothing else: the only event a query emits is
    [EvRetrieve 3], and an answer carries at most three chunks, the first
    three of the similarity ranking. *)
Theorem retrieval_width_three env request w :
  (emitted (query_document env request) w = []
   ∨ emitted (query_document env request) w = [EvRetrieve 3])
  ∧ match result (query_document env request w) with
    | Return r =>
        (List.length (context r) ≤ 3)%nat
        ∧ ∃ d vs ranked,
            Collection.find_one (request_document_id request)
              (documents_collection w) = Some d
            ∧ vector_stores w !! vector_store_path d = Some vs
            ∧ rank_reply env (request_query request) vs = Ok ranked
            ∧ context r = take 3 ranked
    | Raise _ => True
    end.
Proof.
  split; [apply query_emitted|].
  destruct (query_cases env request w) as
    [(Hfail & _) | (d & vs & ranked & ans & Hd & Hvs & Hr & _ & _ & Hres)].
  - destruct (result _); [destruct Hfail | exact I].
  - rewrite Hres. cbn [context]. split.
    + rewrite length_take. lia.
    + exists d, vs, ranked. done.
Qed.

(** C8, the claim as stated fails: no request makes the retriever run
    with another width. *)
Lemma retrieval_width_is_fixed : ¬ retrieval_width_configurable.
Proof.
  intros (env & request & w & k & Hk & Hev).
  destruct (query_emitted env request w) as [He|He];
    rewrite He in Hev; events. done.
Qed.

Lemma query_keeps_collection env request w :
  documents_collection (final (query_document env request w))
  = documents_collection w
  ∧ vector_stores (final (query_document env request w)) = vector_stores w.
Proof.
  destruct (query_cases env request w) as
    [(_ & _ & [Hw|Hw]) | (d & vs & ranked & ans & _ & _ & _ & _ & Hw & _)];
    rewrite Hw; done.
Qed.

Lemma run_queries_keeps_collection qs w :
  documents_collection (run_queries qs w) = documents_collection w.
Proof.
  unfold run_queries. revert w.
  induction qs as [|[env request] qs IH]; intros w; [done|].
  cbn [foldl fst snd]. rewrite IH. apply query_keeps_collection.
Qed.

(** C9.  [list_documents] changes nothing, and listing again, also after
    any number of queries, gives the same sequence: the first hundred
    records in insertion order. *)
Theorem list_documents_idempotent db qs w :
  final (list_documents db w) = w
  ∧ result (list_documents db (run_queries qs (final (list_documents db w))))
    = result (list_documents db w)
  ∧ result (list_documents (Ok tt) w)
    = Return (to_response <$> take 100 (documents_collection w)).
Proof.
  destruct (list_documents_spec db w) as [Hw Hres].
  split; [exact Hw|]. split.
  - rewrite Hw, Hres.
    rewrite (proj2 (list_documents_spec db (run_queries qs w))).
    rewrite run_queries_keeps_collection. reflexivity.
  - apply (list_documents_spec (Ok tt) w).
Qed.

(** ** Persistence before insertion *)

Lemma persist_before_insert_nil : persist_before_insert [].
Proof. intros i d Hi. rewrite lookup_nil in Hi. discriminate. Qed.

Lemma persist_before_insert_app tr evs :
  persist_before_insert tr → persist_before_insert evs →
  persist_before_insert (tr ++ evs).
Proof.
  intros Htr Hevs i d Hi.
  destruct (decide (i < List.length tr)%nat) as [Hlt|Hge].
  - rewrite lookup_app_l in Hi by exact Hlt.
    destruct (Htr i d Hi) as (j & Hj & Hp).
    exists j. split; [exact Hj|]. rewrite lookup_app_l by lia. exact Hp.
  - rewrite lookup_app_r in Hi by lia.
    destruct (Hevs _ d Hi) as (j & Hj & Hp).
    exists (List.length tr + j)%nat. split; [lia|].
    rewrite lookup_app_r by lia.
    replace (List.length tr + j - List.length tr)%nat with j by lia.
    exact Hp.
Qed.

Lemma persist_before_insert_other e :
  (∀ d, e ≠ EvInsert d) → persist_before_insert [e].
Proof.
  intros He [|i] d Hi; cbn in Hi; [|discriminate Hi].
  injection Hi as ->. destruct (He d eq_refl).
Qed.

Lemma persist_before_insert_ingest id d :
  persist_before_insert [EvBlobPut id; EvPersist (vector_store_path d); EvInsert d].
Proof.
  intros [|[|[|i]]] d' Hi; cbn in Hi; try discriminate.
  injection Hi as ->. exists 1%nat. split; [lia | reflexivity].
Qed.

(** In every ingest, whatever the state it starts from, the index is
    saved strictly before the record is inserted. *)
Lemma upload_persist_before_insert env file w :
  persist_before_insert (emitted (upload_document env file) w).
Proof.
  destruct (upload_run_emitted env file w _ _ (upload_cases env file w))
    as (evs & Htr & Hevs).
  rewrite (emitted_app _ _ _ Htr).
  destruct (result _).
  - destruct Hevs as (r & pages & -> & _).
    apply (persist_before_insert_ingest _ (new_document env file r)).
  - destruct Hevs as [-> | [(r & ->) | (r & pages & -> & _)]].
    + apply persist_before_insert_nil.
    + apply persist_before_insert_other. discriminate.
    + apply (persist_before_insert_app [_] [_]);
        apply persist_before_insert_other; discriminate.
Qed.

Lemma upload_trace_extends env file w :
  trace (final (upload_document env file w))
  = trace w ++ emitted (upload_document env file) w.
Proof.
  destruct (upload_run_emitted env file w _ _ (upload_cases env file w))
    as (evs & Htr & _).
  rewrite (emitted_app _ _ _ Htr). exact Htr.
Qed.

Lemma upload_keeps_registry_backed env file w :
  registry_backed w → registry_backed (final (upload_document env file w)).
Proof.
  unfold registry_backed. intros Hw.
  upload_paths env file w; intros d Hd; try (apply Hw; exact Hd).
  - apply lookup_insert_is_Some'. right. apply Hw. exact Hd.
  - apply lookup_insert_is_Some'. right. apply Hw. exact Hd.
  - apply lookup_insert_is_Some'.
    apply elem_of_app in Hd as [Hd|Hd].
    + right. apply Hw. exact Hd.
    + left. apply list_elem_of_singleton in Hd as ->. reflexivity.
Qed.

(** start-up leaves the world as it is: no lifespan was registered *)
Lemma startup_does_nothing w : final (startup app w) = w.
Proof. reflexivity. Qed.

Lemma query_trace env request w :
  trace (final (query_document env request w))
  = trace w ++ emitted (query_document env request) w.
Proof.
  destruct (query_cases env request w) as
    [(_ & _ & [Hw|Hw]) | (d & vs & ranked & ans & _ & _ & _ & _ & Hw & _)].
  - unfold emitted. rewrite Hw, drop_all, app_nil_r. reflexivity.
  - rewrite (emitted_app _ w [EvRetrieve 3]); rewrite Hw; reflexivity.
  - rewrite (emitted_app _ w [EvRetrieve 3]); rewrite Hw; reflexivity.
Qed.

(** C5.  In every world the service can reach, each Registry insertion in
    the trace comes strictly after the persistence of the index the
    record points at, and every record of the Registry points at a
    persisted index. *)
Theorem registry_always_backed w :
  reachable w → persist_before_insert (trace w) ∧ registry_backed w.
Proof.
  induction 1 as [|r w Hreach [Htr Hback]].
  - split; [apply persist_before_insert_nil|].
    intros d Hd. cbn in Hd. apply elem_of_nil in Hd. destruct Hd.
  - destruct r as [|env file|env request|db]; cbn [serve].
    + rewrite startup_does_nothing. split; assumption.
    + split.
      * rewrite upload_trace_extends.
        apply persist_before_insert_app;
          [exact Htr | apply upload_persist_before_insert].
      * apply upload_keeps_registry_backed. exact Hback.
    + destruct (query_keeps_collection env request w) as [Hc Hv].
      split.
      * rewrite query_trace. apply persist_before_insert_app; [exact Htr|].
        destruct (query_emitted env request w) as [->| ->].
        -- apply persist_before_insert_nil.
        -- apply persist_before_insert_other. discriminate.
      * intros d Hd. rewrite Hc in Hd. rewrite Hv. apply Hback. exact Hd.
    + rewrite (proj1 (list_documents_spec db w)). split; assumption.
Qed.

(** ** The Registry *)

(** what the hook would do if it were run: on distinct identities it
    creates the unique index *)
Lemma startup_creates_unique_index w :
  NoDup (Collection.ids (documents_collection w)) →
  document_id_unique (final (lifespan_startup w)) = true.
Proof.
  intros Hnd. unfold lifespan_startup, Collection.create_index_unique, final.
  rewrite bool_decide_eq_true_2 by exact Hnd. reflexivity.
Qed.

(** without the unique index the collection takes every document *)
Lemma store_document_without_index d w :
  document_id_unique w = false →
  store_document d w
  = (log (EvInsert d) (with_collection (λ _, documents_collection w ++ [d]) w),
     Return tt).
Proof.
  intros Hu. unfold store_document, Collection.insert_one. rewrite Hu.
  reflexivity.
Qed.

Lemma upload_keeps_unique_flag env file w :
  document_id_unique (final (upload_document env file w))
  = document_id_unique w.
Proof. upload_paths env file w; reflexivity. Qed.

Lemma query_final env request w :
  final (query_document env request w) = w
  ∨ final (query_document env request w) = log (EvRetrieve 3) w.
Proof.
  destruct (query_cases env request w) as
    [(_ & _ & [Hw|Hw]) | (d & vs & ranked & ans & _ & _ & _ & _ & Hw & _)];
    auto.
Qed.

(** the service never gets a unique index *)
Lemma reachable_without_index w : reachable w → document_id_unique w = false.
Proof.
  induction 1 as [|r w Hreach IH]; [reflexivity|].
  destruct r as [|env file|env request|db]; cbn [serve].
  - rewrite startup_does_nothing. exact IH.
  - rewrite upload_keeps_unique_flag. exact IH.
  - destruct (query_final env request w) as [-> | ->]; exact IH.
  - rewrite (proj1 (list_documents_spec db w)). exact IH.
Qed.

(** ** Concrete runs *)

Lemma demo_world_reachable : reachable demo_world.
Proof. apply reachable_serve, reachable_serve, reachable_empty. Qed.

Example demo_ingest_succeeds :
  result (upload_document demo_env demo_file (serve Startup empty_world))
  = Return {| response_document_id := "4e5f-0001";
              response_filename := "My Doc.pdf";
              response_cloudinary_url :=
                "https://res.cloudinary.com/demo/raw/upload/rag_documents/doc_2c3d";
              response_upload_date := "2024-01-01T00:00:00Z" |}.
Proof. vm_compute. reflexivity. Qed.

Example demo_query_answers :
  result (query_document demo_query_env demo_request demo_world)
  = Return {| answer_document_id := "4e5f-0001";
              answer_query := "What is the capital of France?";
              answer := "Paris";
              context := ["The capital of France is Paris."; "Second page."] |}.
Proof. vm_compute. reflexivity. Qed.

(** C2, the claim as stated fails: MongoDB is down at the insertion, the
    handler reports the failure, and the index saved just before is
    still in storage. *)
Lemma insert_failure_leaves_orphan :
  ¬ compensates insert_fails_env demo_file empty_world.
Proof.
  intros H.
  specialize (H "vector_stores/rag_documents/doc_2c3d").
  assert (Hnone : vector_stores
                    (final (upload_document insert_fails_env demo_file empty_world))
                  !! "vector_stores/rag_documents/doc_2c3d" = None).
  { apply H.
    - refine (bool_decide_unpack _ _); vm_compute; exact I.
    - vm_compute. exact I. }
  vm_compute in Hnone. discriminate Hnone.
Qed.

(** the amended C2 on the run with MongoDB down at the insertion *)
Lemma insert_failure_keeps_index_witness :
  InternalError (result (upload_document insert_fails_env demo_file empty_world))
  ∧ is_Some (vector_stores
               (final (upload_document insert_fails_env demo_file empty_world))
             !! "vector_stores/rag_documents/doc_2c3d")
  ∧ documents_collection
      (final (upload_document insert_fails_env demo_file empty_world))
    = documents_collection empty_world.
Proof.
  apply (insert_failure_keeps_index insert_fails_env demo_file empty_world
           "vector_stores/rag_documents/doc_2c3d").
  - refine (bool_decide_unpack _ _); vm_compute; exact I.
  - vm_compute. exact I.
Defined.

(** C4 on an empty [empty.pdf] uploaded after one successful ingest *)
Lemma zero_byte_upload_rejected_witness :
  UnreadableDocument (result (upload_document demo_env empty_pdf demo_world))
  ∧ documents_collection (final (upload_document demo_env empty_pdf demo_world))
    = documents_collection demo_world.
Proof.
  destruct (zero_byte_upload_rejected demo_env empty_pdf demo_world eq_refl)
    as (H400 & _ & Hdocs & _).
  exact (conj H400 Hdocs).
Defined.

(** C5 on the world after start-up and one successful ingest *)
Lemma registry_always_backed_witness :
  persist_before_insert (trace demo_world) ∧ registry_backed demo_world.
Proof.
  apply (registry_always_backed demo_world).
  apply reachable_serve, reachable_serve, reachable_empty.
Defined.

(** C6, at the failing input.  The service has started and holds one
    record with the identity [4e5f-0001]; no unique index exists, because
    the hook that creates it is never run.  A second ingest under the same
    identity succeeds, and the Registry then holds two records with that
    identity, where the claim says the insertion fails. *)
Theorem stored_identity_inserted_twice :
  Collection.ids (documents_collection demo_world) = ["4e5f-0001"]
  ∧ document_id_unique demo_world = false
  ∧ result (store_document
              (new_document demo_env demo_file (demo_upload_result "doc_2c3d"))
              demo_world) = Return tt
  ∧ succeeded (result (upload_document demo_env demo_file demo_world))
  ∧ Collection.ids
      (documents_collection (final (upload_document demo_env demo_file demo_world)))
    = ["4e5f-0001"; "4e5f-0001"].
Proof. repeat split; vm_compute; reflexivity. Qed.

(** C7, the claim as stated fails: Cloudinary is down, every other
    collaborator answers, and the ingest does not succeed. *)
Lemma blob_failure_fails_ingest :
  ¬ tolerates_blob_failure blob_fails_env demo_file empty_world.
Proof.
  intros H.
  specialize (H "Connection refused" eq_refl).
  assert (Hs : succeeded
                 (result (upload_document blob_fails_env demo_file empty_world))).
  { apply H; [discriminate | reflexivity]. }
  vm_compute in Hs. exact Hs.
Qed.

(** the amended C7 on the run with Cloudinary down *)
Lemma blob_failure_is_internal_error_witness :
  result (upload_document blob_fails_env demo_file empty_world)
  = Raise (HTTPException 500 "Internal server error: Connection refused").
Proof.
  apply (blob_failure_is_internal_error blob_fails_env demo_file empty_world
           "Connection refused").
  - vm_compute. reflexivity.
  - discriminate.
  - reflexivity.
Defined.

(** C10 on a non-empty upload whose bytes fail to parse as a PDF *)
Lemma failed_ingest_keeps_blob_and_temp_file_witness :
  cloudinary (final (upload_document pdf_fails_env demo_file empty_world))
    !! "rag_documents/doc_2c3d" = Some pdf_bytes
  ∧ files (final (upload_document pdf_fails_env demo_file empty_world))
    !! "/app/temp/0a1b_My_Doc.pdf" = Some pdf_bytes.
Proof.
  apply (failed_ingest_keeps_blob_and_temp_file pdf_fails_env demo_file
           empty_world "rag_documents/doc_2c3d").
  - refine (bool_decide_unpack _ _); vm_compute; exact I.
  - vm_compute. exact I.
Defined.

(** ** The text splitter *)



























(** the splitter cuts at blank lines, drops them between chunks and
    strips the chunks *)
Example split_at_blank_lines :
  TextSplitter.split_text 3 0
    ("aa" +:+ TextSplitter.separator +:+ "bb" +:+ TextSplitter.separator
     +:+ TextSplitter.separator +:+ " cc ")
  = Some ["aa"; "bb"; "cc"].
Proof. vm_compute. reflexivity. Qed.

(** pieces are merged while they fit, and the overlap is counted in
    pieces *)
Example merge_with_overlap :
  TextSplitter.split_text 10 4
    ("aa" +:+ TextSplitter.separator +:+ "bb" +:+ TextSplitter.separator
     +:+ "cc" +:+ TextSplitter.separator +:+ "dd")
  = Some ["aa" +:+ TextSplitter.separator +:+ "bb" +:+ TextSplitter.separator
          +:+ "cc";
          "cc" +:+ TextSplitter.separator +:+ "dd"].
Proof. vm_compute. reflexivity. Qed.

(** * Further properties of the handlers *)

(** ** File names *)

Lemma lower_app a b : PyStr.lower (a +:+ b) = PyStr.lower a +:+ PyStr.lower b.
Proof.
  induction a as [|c a IH]; [reflexivity|].
  change (String (PyStr.lower_char c) (PyStr.lower (a +:+ b))
          = String (PyStr.lower_char c) (PyStr.lower a +:+ PyStr.lower b)).
  by rewrite IH.
Qed.

Lemma append_assoc' a b c : (a +:+ b) +:+ c = a +:+ (b +:+ c).
Proof.
  induction a as [|x a IH]; [reflexivity|].
  change (String x ((a +:+ b) +:+ c) = String x (a +:+ (b +:+ c))).
  by rewrite IH.
Qed.

Lemma rev_app_acc s acc : String.rev_app s acc = String.rev_app s "" +:+ acc.
Proof.
  revert acc. induction s as [|c s IH]; intros acc; [reflexivity|].
  change (String.rev_app s (String c acc)
          = String.rev_app s (String c "") +:+ acc).
  rewrite (IH (String c acc)), (IH (String c "")), append_assoc'.
  reflexivity.
Qed.

Lemma rev_app_append a b acc :
  String.rev_app (a +:+ b) acc = String.rev_app b (String.rev_app a acc).
Proof.
  revert acc. induction a as [|c a IH]; intros acc; [reflexivity|].
  exact (IH (String c acc)).
Qed.

Lemma rev_append a b : String.rev (a +:+ b) = String.rev b +:+ String.rev a.
Proof.
  unfold String.rev. rewrite rev_app_append. apply rev_app_acc.
Qed.

Lemma prefix_append p x : String.prefix p (p +:+ x) = true.
Proof.
  induction p as [|c p IH]; [by destruct x|].
  change (String.prefix (String c p) (String c (p +:+ x)) = true).
  cbn. destruct (ascii_dec c c); [exact IH | congruence].
Qed.

Lemma endswith_append a suffix : PyStr.endswith (a +:+ suffix) suffix = true.
Proof. unfold PyStr.endswith. rewrite rev_append. apply prefix_append. Qed.

(** X2.  The file-type check ignores letter case and looks at the end of
    the name only: any name that ends in an extension whose lower-case
    form is [.pdf] passes, whatever comes before it. *)
Theorem pdf_extension_any_case stem ext bs :
  PyStr.lower ext = ".pdf" →
  is_pdf_name {| file_name := stem +:+ ext; file_bytes := bs |} = true.
Proof.
  intros Hext. unfold is_pdf_name. cbn [file_name].
  rewrite lower_app, Hext. apply endswith_append.
Qed.

(** X2 on [Quarterly Report.PdF] *)
Lemma pdf_extension_any_case_witness :
  is_pdf_name {| file_name := "Quarterly Report" +:+ ".PdF";
                 file_bytes := pdf_bytes |} = true.
Proof.
  apply (pdf_extension_any_case "Quarterly Report" ".PdF" pdf_bytes).
  reflexivity.
Defined.

Lemma safe_underscore : PyStr.safe_char "_" = true.
Proof. reflexivity. Qed.

Lemma sanitize_length s : String.length (PyStr.sanitize s) = String.length s.
Proof. induction s as [|c s IH]; cbn; [reflexivity | by rewrite IH]. Qed.

Lemma sanitize_safe s c :
  c ∈ chars (PyStr.sanitize s) → PyStr.safe_char c = true.
Proof.
  unfold chars. induction s as [|x s IH]; cbn; intros Hc.
  - apply elem_of_nil in Hc. destruct Hc.
  - apply elem_of_cons in Hc as [->|Hc]; [|exact (IH Hc)].
    destruct (PyStr.safe_char x) eqn:Hx; [exact Hx | reflexivity].
Qed.

Lemma sanitize_fixed s :
  (∀ c, c ∈ chars s → PyStr.safe_char c = true) → PyStr.sanitize s = s.
Proof.
  unfold chars. induction s as [|x s IH]; cbn; intros Hs; [reflexivity|].
  rewrite (Hs x) by (apply elem_of_cons; by left).
  rewrite IH; [reflexivity|]. intros c Hc. apply Hs, elem_of_cons. by right.
Qed.

(** X3.  The name under which the upload is written to disk has the
    length of the original name, consists of letters, digits, dots,
    underscores and hyphens only, in particular holds no slash and no
    space, and a name that was already of that form is kept as it is. *)
Theorem sanitized_name_is_safe s :
  String.length (PyStr.sanitize s) = String.length s
  ∧ (∀ c, c ∈ chars (PyStr.sanitize s) → PyStr.safe_char c = true)
  ∧ ("/"%char ∉ chars (PyStr.sanitize s))
  ∧ (" "%char ∉ chars (PyStr.sanitize s))
  ∧ PyStr.sanitize (PyStr.sanitize s) = PyStr.sanitize s.
Proof.
  split; [apply sanitize_length|]. split; [apply sanitize_safe|].
  split; [|split].
  - intros Hc. apply sanitize_safe in Hc. discriminate Hc.
  - intros Hc. apply sanitize_safe in Hc. discriminate Hc.
  - apply sanitize_fixed, sanitize_safe.
Qed.

(** ** Ingest *)

(** X1.  An upload whose name does not end in [.pdf] is rejected with a
    400 before the handler touches anything: the world is exactly as it
    was, not even the temp directory is made. *)
Theorem non_pdf_upload_rejected env file w :
  is_pdf_name file = false →
  result (upload_document env file w)
  = Raise (HTTPException 400 "Only PDF files are allowed")
  ∧ final (upload_document env file w) = w.
Proof.
  intros Hname. upload_paths env file w; try congruence. done.
Qed.

(** X1 on a non-empty [notes.txt] *)
Lemma non_pdf_upload_rejected_witness :
  result (upload_document demo_env
            {| file_name := "notes.txt"; file_bytes := pdf_bytes |} demo_world)
  = Raise (HTTPException 400 "Only PDF files are allowed").
Proof.
  apply (non_pdf_upload_rejected demo_env
           {| file_name := "notes.txt"; file_bytes := pdf_bytes |} demo_world).
  reflexivity.
Defined.

(** X4.  An ingest succeeds only when the name is a PDF name, the
    upload is not empty, every collaborator has answered (Cloudinary, the
    PDF loader, the embedder, the save of the index, MongoDB) and the new
    identity does not collide under a unique index: if one of these is
    missing, the ingest fails. *)
Theorem ingest_succeeds_only_if env file w :
  succeeded (result (upload_document env file w)) →
  ∃ r pages, ingest_conditions env file w r pages.
Proof.
  unfold ingest_conditions.
  intros Hok. upload_paths env file w; try (destruct Hok; fail).
  exists r, pages. done.
Qed.

(** X4 on the demo ingest *)
Lemma ingest_succeeds_only_if_witness :
  ∃ r pages, ingest_conditions demo_env demo_file empty_world r pages.
Proof.
  apply (ingest_succeeds_only_if demo_env demo_file empty_world).
  vm_compute. exact I.
Defined.

(** X5.  What a successful ingest leaves behind: one record appended at
    the end of the Registry, carrying the original file name, the URL and
    date Cloudinary reported and the path [vector_stores/<public id>];
    the index saved at that path, holding the chunks of the loaded pages;
    the blob with the uploaded bytes; no temporary file; and the response
    is that record without its index path.  The three effects happen in
    the order blob, index, record. *)
Theorem successful_ingest_effects env file w resp :
  result (upload_document env file w) = Return resp →
  ∃ r pages,
    cloudinary_reply env (requested_public_id env) (file_bytes file) = Ok r
    ∧ pdf_reply env (file_bytes file) = Ok pages
    ∧ resp = to_response (new_document env file r)
    ∧ documents_collection (final (upload_document env file w))
      = documents_collection w ++ [new_document env file r]
    ∧ vector_stores (final (upload_document env file w))
      = <[persistent_path r := split_documents env 1000 0 pages]>
          (vector_stores w)
    ∧ cloudinary (final (upload_document env file w))
      = <[public_id r := file_bytes file]> (cloudinary w)
    ∧ files (final (upload_document env file w)) !! temp_file_path env file
      = None
    ∧ emitted (upload_document env file) w
      = [EvBlobPut (public_id r); EvPersist (persistent_path r);
         EvInsert (new_document env file r)].
Proof.
  intros Hres. upload_paths env file w; try discriminate Hres.
  injection Hres as <-. exists r, pages.
  repeat (split; [done|]). split; [apply lookup_delete_eq | done].
Qed.

(** X5 on the demo ingest *)
Lemma successful_ingest_effects_witness :
  ∃ r pages,
    cloudinary_reply demo_env (requested_public_id demo_env)
      (file_bytes demo_file) = Ok r
    ∧ pdf_reply demo_env (file_bytes demo_file) = Ok pages
    ∧ files (final (upload_document demo_env demo_file empty_world))
      !! temp_file_path demo_env demo_file = None.
Proof.
  destruct (successful_ingest_effects demo_env demo_file empty_world
              (to_response (new_document demo_env demo_file
                              (demo_upload_result "doc_2c3d"))))
    as (r & pages & Hr & Hp & _ & _ & _ & _ & Hf & _).
  - vm_compute. reflexivity.
  - exists r, pages. exact (conj Hr (conj Hp Hf)).
Defined.

(** X6.  A failing ingest never changes the Registry, and it always
    surfaces as an HTTP 400 or an HTTP 500: no other status and no
    exception of another class leaves the handler. *)
Theorem failed_ingest_leaves_registry env file w :
  failed (result (upload_document env file w)) →
  (UnreadableDocument (result (upload_document env file w))
   ∨ InternalError (result (upload_document env file w)))
  ∧ documents_collection (final (upload_document env file w))
    = documents_collection w
  ∧ document_id_unique (final (upload_document env file w))
    = document_id_unique w.
Proof.
  intros Hfail. upload_paths env file w; try (destruct Hfail; fail).
  all: split; [|done].
  all: first [left; eexists; reflexivity | right; eexists; reflexivity].
Qed.

(** X6 on the run with Cloudinary down *)
Lemma failed_ingest_leaves_registry_witness :
  documents_collection (final (upload_document blob_fails_env demo_file demo_world))
  = documents_collection demo_world.
Proof.
  apply (failed_ingest_leaves_registry blob_fails_env demo_file demo_world).
  vm_compute. exact I.
Defined.

(** X7.  When the bytes cannot be loaded as a PDF, the ingest fails with
    a 400 whose detail carries the loader's message, not with the generic
    500, and neither an index nor a record is written. *)
Theorem unparseable_pdf_rejected env file w r msg :
  is_pdf_name file = true →
  file_bytes file ≠ [] →
  cloudinary_reply env (requested_public_id env) (file_bytes file) = Ok r →
  pdf_reply env (file_bytes file) = Fails msg →
  result (upload_document env file w)
  = Raise (HTTPException 400
             ("Failed to load document (PDFium: " +:+ msg +:+ ")"))
  ∧ vector_stores (final (upload_document env file w)) = vector_stores w
  ∧ documents_collection (final (upload_document env file w))
    = documents_collection w.
Proof.
  intros Hpdf Hne Hblob Hload. upload_paths env file w; try congruence.
  assert (msg0 = msg) as -> by congruence. done.
Qed.

(** X7 on bytes the loader refuses *)
Lemma unparseable_pdf_rejected_witness :
  result (upload_document pdf_fails_env demo_file empty_world)
  = Raise (HTTPException 400
             "Failed to load document (PDFium: Failed to load document)").
Proof.
  apply (unparseable_pdf_rejected pdf_fails_env demo_file empty_world
           (demo_upload_result "doc_2c3d") "Failed to load document").
  - vm_compute. reflexivity.
  - discriminate.
  - reflexivity.
  - reflexivity.
Defined.

(** ** Queries *)

Lemma query_success env request w d vs ranked ans :
  query_conditions env request w d vs ranked ans →
  result (query_document env request w)
  = Return {| answer_document_id := request_document_id request;
              answer_query := request_query request;
              answer := ans;
              context := take 3 ranked |}
  ∧ final (query_document env request w) = log (EvRetrieve 3) w.
Proof.
  intros (Hfind & Hd & Hvs & Hrank & Hllm).
  unfold query_document, try_except, find_one, FAISS_load_local,
    create_retrieval_chain, as_retriever, create_stuff_documents_chain,
    internal_server_error, of_reply, gets, modify, raise, mbind, M_bind,
    mret, M_ret, final, result.
  cbv zeta. rewrite Hfind. cbn [fst snd]. rewrite Hd, Hvs. cbn [fst snd].
  rewrite Hrank. cbn [fst snd]. rewrite Hllm. done.
Qed.

(** X8.  A query is read-only: whatever it answers, the files, the blob
    store, the persisted indices, the Registry and its unique index are
    as they were. *)
Theorem query_is_read_only env request w :
  dirs (final (query_document env request w)) = dirs w
  ∧ files (final (query_document env request w)) = files w
  ∧ cloudinary (final (query_document env request w)) = cloudinary w
  ∧ vector_stores (final (query_document env request w)) = vector_stores w
  ∧ documents_collection (final (query_document env request w))
    = documents_collection w
  ∧ document_id_unique (final (query_document env request w))
    = document_id_unique w.
Proof.
  destruct (query_cases env request w) as
    [(_ & _ & [Hw|Hw]) | (d & vs & ranked & ans & _ & _ & _ & _ & Hw & _)];
    rewrite Hw; done.
Qed.

(** X9.  A query is answered exactly when MongoDB answers, a record with
    the requested identity is stored, its index is in storage, and the
    embedder and the LLM answer; the answer then echoes the identity and
    the question and carries the first three chunks of the ranking. *)
Theorem query_succeeds_iff env request w :
  succeeded (result (query_document env request w))
  ↔ ∃ d vs ranked ans, query_conditions env request w d vs ranked ans.
Proof.
  split.
  - unfold query_conditions, query_document, try_except, find_one,
      FAISS_load_local, create_retrieval_chain, as_retriever,
      create_stuff_documents_chain, internal_server_error, of_reply, gets,
      modify, raise, mbind, M_bind, mret, M_ret, final, result.
    cbv zeta.
    destruct (find_reply env) as [[]|msg]; cbn [fst snd]; [|intros []].
    destruct (Collection.find_one _ _) as [d|]; cbn [fst snd]; [|intros []].
    destruct (vector_stores w !! vector_store_path d) as [vs|] eqn:Hvs;
      cbn [fst snd]; [|intros []].
    destruct (rank_reply env _ vs) as [ranked|msg] eqn:Hrank; cbn [fst snd];
      [|intros []].
    destruct (llm_reply env _ _) as [ans|msg] eqn:Hllm; cbn [fst snd];
      [|intros []].
    intros _. exists d, vs, ranked, ans. done.
  - intros (d & vs & ranked & ans & Hc).
    rewrite (proj1 (query_success _ _ _ _ _ _ _ Hc)). exact I.
Qed.

Lemma find_one_appended id docs d :
  id ∉ Collection.ids docs → document_id d = id →
  Collection.find_one id (docs ++ [d]) = Some d.
Proof.
  intros Hfresh Hid. unfold Collection.find_one.
  rewrite list_find_app_r.
  - cbn. rewrite decide_True by exact Hid. reflexivity.
  - apply list_find_None, Forall_forall. intros x Hx Hxid.
    apply Hfresh. unfold Collection.ids. rewrite <- Hxid.
    apply list_elem_of_fmap_2, Hx.
Qed.

(** X10.  Ingest then query.  After a successful ingest under an identity
    not stored before, a query for the identity of the response is served
    from the index of that very ingest: its context is the first three
    entries of the ranking of the chunks of the pages just loaded. *)
Theorem ingest_then_query env file w resp qenv question :
  result (upload_document env file w) = Return resp →
  uuid4_document env ∉ Collection.ids (documents_collection w) →
  find_reply qenv = Ok tt →
  ∃ pages,
    pdf_reply env (file_bytes file) = Ok pages
    ∧ ∀ ranked ans,
        rank_reply qenv question (split_documents env 1000 0 pages) = Ok ranked →
        llm_reply qenv question (take 3 ranked) = Ok ans →
        result (query_document qenv
                  {| request_document_id := response_document_id resp;
                     request_query := question |}
                  (final (upload_document env file w)))
        = Return {| answer_document_id := response_document_id resp;
                    answer_query := question;
                    answer := ans;
                    context := take 3 ranked |}.
Proof.
  intros Hres Hfresh Hfind. upload_paths env file w; try discriminate Hres.
  injection Hres as <-. exists pages. split; [done|].
  intros ranked ans Hrank Hllm.
  refine (proj1 (query_success qenv _ _ (new_document env file r)
                   (chunks_of env pages) ranked ans _)).
  unfold query_conditions.
  cbn [request_document_id request_query documents_collection vector_stores
       log with_files with_collection with_vector_stores with_dirs
       with_cloudinary to_response response_document_id].
  split; [exact Hfind|]. split; [|split; [|split]].
  - apply find_one_appended; [exact Hfresh | reflexivity].
  - apply lookup_insert_eq.
  - exact Hrank.
  - exact Hllm.
Qed.

(** X10 on the demo ingest followed by the demo question *)
Lemma ingest_then_query_witness :
  ∃ pages,
    pdf_reply demo_env (file_bytes demo_file) = Ok pages
    ∧ ∀ ranked ans,
        rank_reply demo_query_env "Where?"
          (split_documents demo_env 1000 0 pages) = Ok ranked →
        llm_reply demo_query_env "Where?" (take 3 ranked) = Ok ans →
        result (query_document demo_query_env
                  {| request_document_id := "4e5f-0001";
                     request_query := "Where?" |}
                  (final (upload_document demo_env demo_file empty_world)))
        = Return {| answer_document_id := "4e5f-0001";
                    answer_query := "Where?";
                    answer := ans;
                    context := take 3 ranked |}.
Proof.
  apply (ingest_then_query demo_env demo_file empty_world
           (to_response (new_document demo_env demo_file
                           (demo_upload_result "doc_2c3d")))
           demo_query_env "Where?").
  - vm_compute. reflexivity.
  - refine (bool_decide_unpack _ _); vm_compute; exact I.
  - reflexivity.
Defined.

(** ** What the service keeps over time *)

(** X11.  In every world the service reaches, the unique index on
    [document_id] is not in place, because the hook that would create it
    is stored in an attribute the framework does not read; so the
    Registry takes every insert, also of an identity it already holds,
    and appends the record. *)
Theorem unique_index_never_in_place w d :
  reachable w →
  document_id_unique w = false
  ∧ result (store_document d w) = Return tt
  ∧ documents_collection (final (store_document d w))
    = documents_collection w ++ [d].
Proof.
  intros Hreach. pose proof (reachable_without_index w Hreach) as Hu.
  rewrite (store_document_without_index d w Hu). done.
Qed.

(** X11 on the service after its start-up and one ingest *)
Lemma unique_index_never_in_place_witness :
  document_id_unique demo_world = false.
Proof.
  apply (unique_index_never_in_place demo_world
           (new_document demo_env demo_file (demo_upload_result "doc_2c3d"))).
  apply reachable_serve, reachable_serve, reachable_empty.
Defined.

Lemma serve_upload_grows env file w :
  documents_collection w `prefix_of`
    documents_collection (final (upload_document env file w))
  ∧ dom (vector_stores w) ⊆ dom (vector_stores (final (upload_document env file w)))
  ∧ dom (cloudinary w) ⊆ dom (cloudinary (final (upload_document env file w))).
Proof.
  upload_paths env file w; rewrite ?dom_insert_L;
    (split; [first [reflexivity | apply prefix_app_r; reflexivity]|]);
    split; set_solver.
Qed.

(** X12.  The stores only grow.  Whatever requests are served, the
    records stored before are still there, unchanged and in their places
    at the front of the Registry, and every index path and every blob id
    that was in storage is still in storage: no handler deletes or
    rewrites a record, and none removes an index or a blob. *)
Theorem stores_only_grow w0 w :
  served_from w0 w →
  documents_collection w0 `prefix_of` documents_collection w
  ∧ dom (vector_stores w0) ⊆ dom (vector_stores w)
  ∧ dom (cloudinary w0) ⊆ dom (cloudinary w).
Proof.
  induction 1 as [|r w Hserved (IHd & IHv & IHc)]; [done|].
  destruct r as [|env file|env request|db]; cbn [serve].
  - rewrite startup_does_nothing. done.
  - destruct (serve_upload_grows env file w) as (Hd & Hv & Hc).
    split; [by etrans|]. split; set_solver.
  - destruct (query_final env request w) as [-> | ->]; done.
  - rewrite (proj1 (list_documents_spec db w)). done.
Qed.

(** X12 from the started service to the service after one ingest *)
Lemma stores_only_grow_witness :
  documents_collection (serve Startup empty_world)
    `prefix_of` documents_collection demo_world.
Proof.
  apply (stores_only_grow (serve Startup empty_world) demo_world).
  apply served_next, served_here.
Defined.

(** ** Listing *)

(** X13.  A listing holds at most 100 documents: the number of records
    when there are fewer, and 100 otherwise; it is never longer than the
    Registry. *)
Theorem listing_is_bounded db w l :
  result (list_documents db w) = Return l →
  List.length l = (List.length (documents_collection w) `min` 100)%nat
  ∧ (List.length l ≤ 100)%nat.
Proof.
  rewrite (proj2 (list_documents_spec db w)).
  destruct db as [[]|msg]; [|discriminate].
  intros [= <-]. rewrite length_fmap, length_take. lia.
Qed.

(** X13 on the service after one ingest *)
Lemma listing_is_bounded_witness :
  List.length [to_response (new_document demo_env demo_file
                              (demo_upload_result "doc_2c3d"))]
  = (List.length (documents_collection demo_world) `min` 100)%nat.
Proof.
  apply (listing_is_bounded (Ok tt) demo_world).
  vm_compute. reflexivity.
Defined.

(** X14.  Listing after a successful ingest.  While the Registry holds
    fewer than 100 records, the new document appears at the end of the
    listing, after everything listed before; from 100 records on, the
    listing is the same as before the ingest and the new document is not
    in it. *)
Theorem listing_after_ingest env file w resp :
  result (upload_document env file w) = Return resp →
  ((List.length (documents_collection w) < 100)%nat →
   result (list_documents (Ok tt) (final (upload_document env file w)))
   = Return ((to_response <$> documents_collection w) ++ [resp]))
  ∧ ((100 ≤ List.length (documents_collection w))%nat →
     result (list_documents (Ok tt) (final (upload_document env file w)))
     = result (list_documents (Ok tt) w)).
Proof.
  intros Hres.
  rewrite !(proj2 (list_documents_spec (Ok tt) _)).
  upload_paths env file w; try discriminate Hres.
  injection Hres as <-. split; intros Hlen; f_equal.
  - rewrite take_ge by (rewrite length_app; cbn; lia).
    rewrite fmap_app. reflexivity.
  - rewrite take_app_le by lia. reflexivity.
Qed.

(** X14 on the demo ingest into the started service *)
Lemma listing_after_ingest_witness :
  result (list_documents (Ok tt) demo_world)
  = Return ((to_response <$> documents_collection (serve Startup empty_world))
            ++ [to_response (new_document demo_env demo_file
                               (demo_upload_result "doc_2c3d"))]).
Proof.
  apply (listing_after_ingest demo_env demo_file (serve Startup empty_world)
           (to_response (new_document demo_env demo_file
                           (demo_upload_result "doc_2c3d")))).
  - vm_compute. reflexivity.
  - cbn. lia.
Defined.
